(** * imagegrabber: the concurrent fetch pipeline of [main.go]

    A shallow embedding of the three goroutine bodies of [main.go]
    ([fetchFlickrData], [grabPictures], the signal watcher) and of the
    control loop of [main], together with the properties of the pipeline.

    Modelling conventions.
    - Go's [int] is a [Z]; where the program can reach the ends of the range
      the wrap-around is written out ([wrap_int]).
    - [stop] is a [chan struct{}] that is only ever closed: it is [Open] or
      [Closed], and closing it twice panics, as in the Go runtime.
    - [grab_pictures] is a buffered channel: the list of buffered values
      (oldest first) and its capacity.
    - A [select] picks one of the cases that can proceed; which one is up to
      the runtime, so every select takes a [choice : nat] that indexes the
      ready cases.  The [default] case runs only when no case is ready.
    - The outside world (HTTP, the file system's willingness to create a
      file, the JSON decoder) is an [env] of oracles indexed by a logical
      clock that ticks at each call.
    - The file system is a map from the path handed to [os.Create] to the
      bytes that reached the file opened under that name.  Nothing is said
      about other names of the same file.
    - Everything observable is appended to a chronological [trace].
    - A step of a goroutine runs from one channel operation to the next:
      the crawler's stop check together with the page fetch that follows it,
      a worker's receive together with the retry loop of the item received,
      an iteration of [main]'s drain loop.  What another goroutine does in
      the middle of such a step is not represented: the properties of whole
      runs below are about what a goroutine finds at its own selects and
      tests, or are invariants that hold wherever a step is cut. *)

From Stdlib Require Import ZArith Lia Ascii String.
From stdpp Require Import base option list gmap strings.

Local Open Scope string_scope.
Local Open Scope Z_scope.

(** ** Data model (main.go:20-46) *)

Record FlickrResultPhotoSize := {
  Label : string;
  Filename : string;
  Url : string
}.

Record FlickrResultPhoto := {
  Name : string;
  Description : string;
  Sizes : gmap string FlickrResultPhotoSize
}.

Record FlickrResult := {
  Photos : list FlickrResultPhoto
}.

(** The package-level flag variables. *)
Record config := {
  targetDirectory : string;
  sizeWanted : string;
  maxPages : Z;
  concurrency : Z
}.

(** ** Go primitives *)

(** 64-bit two's complement [int]. *)
Definition wrap_int (z : Z) : Z := (z + 2 ^ 63) mod 2 ^ 64 - 2 ^ 63.

Inductive signal_chan := Open | Closed.

(** [close(c)]: [None] is the runtime panic "close of closed channel". *)
Definition close (c : signal_chan) : option signal_chan :=
  match c with
  | Open => Some Closed
  | Closed => None
  end.

(** One of the ready cases, or [None] when no case can proceed (the
    [default] branch). *)
Definition select {A} (choice : nat) (ready : list A) : option A :=
  match ready with
  | [] => None
  | _ => ready !! (choice mod length ready)%nat
  end.

(** ** The outside world *)

(** An HTTP response as the program reads it: the Content-Type header
    (the empty string when absent), the declared length, the bytes its body
    yields, and whether the body ends in a read error instead of EOF. *)
Record response := {
  ContentType : string;
  ContentLength : Z;
  Body : list Byte.byte;
  BodyErr : bool
}.

Record env := {
  (** [fmt.Sprintf(flickrSearchUrl, url.QueryEscape(clause), page)] *)
  search_url : string -> Z -> string;
  (** [http.NewRequest("GET", rawurl, nil)] succeeds *)
  http_NewRequest : string -> bool;
  (** [client.Do(req)]: [None] is a transport error *)
  client_Do : nat -> string -> option response;
  (** [json.Unmarshal(body, &result)]: [None] is a decoding error *)
  json_Unmarshal : list Byte.byte -> option FlickrResult;
  (** [http.Get(url)]: [None] is a transport error *)
  http_Get : nat -> string -> option response;
  (** [os.Create(path)] succeeds *)
  os_Create : nat -> string -> bool;
  (** [io.Copy(fo, res.Body)] then [fo.Close()] on the file at [path]:
      [None] when every write succeeds, [Some n] when only the first [n]
      bytes reach the file *)
  io_Copy : nat -> string -> option nat
}.

Inductive log_line :=
  | LogGrabbing (clause : string)
  | LogFinished
  | LogCaughtSignal
  | LogStartingGoroutines
  | LogStartGrabbingUris
  | LogWaiting
  | LogStoppingSpider
  | FatalCreatingRequest
  | FatalGettingResponse
  | LogNotJson
  | FatalReadingBody
  | LogCantParse
  | LogParseError
  | LogPushed (filename : string)
  | LogFetching (filename : string) (bytes : Z) (try : Z)
  | LogHardError (retries : Z)
  | LogStoppingGrabber.

Inductive event :=
  | EvLog (l : log_line)
  | EvDo (url : string)
  | EvGet (url : string)
  | EvCreate (path : string) (ok : bool)
  | EvCopy (path : string) (data : list Byte.byte)
  | EvSleep (ns : Z)
  | EvOffer (sized : FlickrResultPhotoSize).

Record world := {
  fs : gmap string (list Byte.byte);
  clock : nat;
  trace : list event
}.

Definition emit (e : event) (w : world) : world :=
  {| fs := fs w; clock := clock w; trace := trace w ++ [e] |}.

Definition tick (w : world) : world :=
  {| fs := fs w; clock := S (clock w); trace := trace w |}.

(** What reaches the file of a copy of [data] with outcome [limit]. *)
Definition copied (limit : option nat) (data : list Byte.byte) : list Byte.byte :=
  match limit with
  | None => data
  | Some n => take n data
  end.

(** [os.Create] truncates, [io.Copy] then writes what the body yields as far
    as the writes succeed; neither the result of [io.Copy] nor that of
    [fo.Close] is looked at. *)
Definition write_file (path : string) (data : list Byte.byte) (w : world) : world :=
  {| fs := <[path := data]> (fs w); clock := clock w; trace := trace w |}.

(** ** Download worker (main.go:195-228) *)

Section Worker.

Context (E : env) (cfg : config).

(** [fmt.Sprintf("%s/%s", targetDirectory, sized.Filename)] *)
Definition destination (sized : FlickrResultPhotoSize) : string :=
  targetDirectory cfg +:+ "/" +:+ Filename sized.

Inductive fetched := Saved | GaveUp (retries : Z).

(** The [for retries = 0; retries < 5; retries++] loop, entered with the
    current value of [retries].  [Saved] is [break nextPicture]; [GaveUp]
    is the loop running out, with the final value of [retries].  The
    counter stays below 6, so its increment cannot wrap.  [EvCopy] records
    the call of [io.Copy] and the bytes the body yields; what reaches the
    file is in [fs]. *)
Fixpoint fetch_loop (fuel : nat) (sized : FlickrResultPhotoSize)
    (retries : Z) (w : world) : option (fetched * world) :=
  match fuel with
  | O => None
  | S fuel' =>
    if retries <? 5 then
      let w1 := tick (emit (EvGet (Url sized)) w) in
      match http_Get E (clock w) (Url sized) with
      | Some res =>
        let w2 := emit (EvLog (LogFetching (Filename sized) (ContentLength res) retries)) w1 in
        let ok := os_Create E (clock w2) (destination sized) in
        let w3 := tick (emit (EvCreate (destination sized) ok) w2) in
        if ok then
          Some (Saved,
                tick (emit (EvCopy (destination sized) (Body res))
                        (write_file (destination sized)
                           (copied (io_Copy E (clock w3) (destination sized)) (Body res))
                           w3)))
        else fetch_loop fuel' sized (retries + 1) w3
      | None =>
        fetch_loop fuel' sized (retries + 1) (emit (EvSleep (2 * (retries + 1))) w1)
      end
    else Some (GaveUp retries, w)
  end.

(** The body of [case sized := <-queue]. *)
Definition fetch_picture (sized : FlickrResultPhotoSize) (w : world) : world :=
  match fetch_loop 6 sized 0 w with
  | Some (Saved, w') => w'
  | Some (GaveUp retries, w') => emit (EvLog (LogHardError retries)) w'
  | None => w
  end.

Inductive worker_case :=
  | WRecv (sized : FlickrResultPhotoSize) (rest : list FlickrResultPhotoSize)
  | WStop.

(** The cases of the worker's select that can proceed, in source order. *)
Definition worker_ready (stop : signal_chan)
    (queue : list FlickrResultPhotoSize) : list worker_case :=
  match queue with
  | sized :: rest => [WRecv sized rest]
  | [] => []
  end ++
  match stop with
  | Closed => [WStop]
  | Open => []
  end.

(** One iteration of the worker's [for] loop.  The boolean tells whether
    the worker loops again ([false]: it returned, running [wg.Done]). *)
Definition grabPictures_iter (choice : nat) (stop : signal_chan)
    (queue : list FlickrResultPhotoSize) (w : world)
    : bool * list FlickrResultPhotoSize * world :=
  match select choice (worker_ready stop queue) with
  | Some (WRecv sized rest) => (true, rest, fetch_picture sized w)
  | Some WStop => (false, queue, emit (EvLog LogStoppingGrabber) w)
  | None => (true, queue, w)
  end.

End Worker.

(** ** Search crawler (main.go:120-193) *)

(** [cap(grab_pictures)], from [make(chan FlickrResultPhotoSize,
    100*concurrency)]. *)
Definition capacity (cfg : config) : nat :=
  Z.to_nat (wrap_int (100 * concurrency cfg)).

(** [make(chan FlickrResultPhotoSize, n)] panics ("makechan: size out of
    range") when [n] is negative or when the buffer, at 48 bytes an element
    (three string headers), does not fit under the runtime's allocation
    limit: 2^48 bytes less the 96 of the channel header on 64-bit Linux.
    A buffer under the limit is taken to be granted. *)
Definition make_panics (n : Z) : bool :=
  (n <? 0) || (2 ^ 48 - 96 <? 48 * n).

(** Where the crawler stands: at the head of the page loop, inside the
    [range result.Photos] loop with the photos still to visit, returned to
    [main], or gone through [log.Fatalf]. *)
Inductive crawler_pc :=
  | CPage (page : Z)
  | CPhotos (page : Z) (rest : list FlickrResultPhoto)
  | CReturned
  | CFatal.

Inductive crawler_case := OStop | OSend.

Section Crawler.

Context (E : env) (cfg : config) (searchClause : string).

(** [case <-stop] can proceed once [stop] is closed. *)
Definition stop_ready (stop : signal_chan) : list crawler_case :=
  match stop with
  | Closed => [OStop]
  | Open => []
  end.

(** [case pictures <- sized] can proceed while the buffer has room. *)
Definition send_ready (queue : list FlickrResultPhotoSize) : list crawler_case :=
  if (length queue <? capacity cfg)%nat then [OSend] else [].

(** Lines 146-177: request, response, content type, body, decoding. *)
Definition fetch_page (page : Z) (w : world) : crawler_pc * world :=
  let rawurl := search_url E searchClause page in
  if http_NewRequest E rawurl then
    let w1 := tick (emit (EvDo rawurl) w) in
    match client_Do E (clock w) rawurl with
    | None => (CFatal, emit (EvLog FatalGettingResponse) w1)
    | Some res =>
      if negb (String.eqb (ContentType res) "application/json") then
        (CReturned, emit (EvLog LogNotJson) w1)
      else if BodyErr res then
        (CFatal, emit (EvLog FatalReadingBody) w1)
      else
        match json_Unmarshal E (Body res) with
        | None =>
          (CReturned, emit (EvLog LogParseError) (emit (EvLog LogCantParse) w1))
        | Some result => (CPhotos page (Photos result), w1)
        end
    end
  else (CFatal, emit (EvLog FatalCreatingRequest) w).

(** One step of [fetchFlickrData]: the test and stop check at the head of
    the page loop followed by the page's fetch, or one iteration of the
    [range] loop, or the [page++] at its end.  [EvOffer] marks that the
    select offering [sized] to the queue is reached. *)
Definition crawler_step (choice : nat) (stop : signal_chan)
    (queue : list FlickrResultPhotoSize) (pc : crawler_pc) (w : world)
    : crawler_pc * list FlickrResultPhotoSize * world :=
  match pc with
  | CPage page =>
    if page <=? maxPages cfg then
      match select choice (stop_ready stop) with
      | Some _ => (CReturned, queue, emit (EvLog LogStoppingSpider) w)
      | None => let '(pc', w') := fetch_page page w in (pc', queue, w')
      end
    else (CReturned, queue, w)
  | CPhotos page [] => (CPage (wrap_int (page + 1)), queue, w)
  | CPhotos page (photo :: rest) =>
    match Sizes photo !! sizeWanted cfg with
    | Some sized =>
      let w1 := emit (EvOffer sized) w in
      match select choice (stop_ready stop ++ send_ready queue) with
      | Some OStop => (CReturned, queue, emit (EvLog LogStoppingSpider) w1)
      | Some OSend =>
        (CPhotos page rest, (queue ++ [sized])%list,
         emit (EvLog (LogPushed (Filename sized))) w1)
      | None => (CPhotos page rest, queue, w1)
      end
    | None => (CPhotos page rest, queue, w)
    end
  | CReturned => (CReturned, queue, w)
  | CFatal => (CFatal, queue, w)
  end.

(** The crawler run against given observations of the shared channels:
    before each step the other goroutines may have changed [stop] and the
    queue to anything, so each step gets its own observation. *)
Fixpoint crawler_run (obs : list (nat * signal_chan * list FlickrResultPhotoSize))
    (pc : crawler_pc) (w : world) : crawler_pc * world :=
  match obs with
  | [] => (pc, w)
  | (choice, stop, queue) :: obs' =>
    let '(pc', _, w') := crawler_step choice stop queue pc w in
    crawler_run obs' pc' w'
  end.

End Crawler.

(** The descriptors the crawler has offered, oldest first. *)
Definition offers (t : list event) : list FlickrResultPhotoSize :=
  omap (fun e => match e with EvOffer sized => Some sized | _ => None end) t.

(** The page fetches issued. *)
Definition page_fetches (t : list event) : list string :=
  omap (fun e => match e with EvDo url => Some url | _ => None end) t.

(** The download attempts issued. *)
Definition downloads (t : list event) : list string :=
  omap (fun e => match e with EvGet url => Some url | _ => None end) t.

(** The files created. *)
Definition created (t : list event) : list string :=
  omap (fun e => match e with EvCreate path true => Some path | _ => None end) t.

(** ** The whole process (main.go:62-118) *)

Inductive main_pc :=
  | MCrawl (c : crawler_pc)
  | MDrain
  | MWait
  | MDone.

(** [Exited 1] is [log.Fatalf] ([os.Exit(1)]), [Exited 0] the return of
    [main]; [Panicked] is an unrecovered runtime panic, [Killed] the default
    action of a signal nobody is notified of any more. *)
Inductive status :=
  | Running
  | Exited (code : Z)
  | Panicked
  | Killed.

Record sys := {
  stop : signal_chan;
  grab_pictures : list FlickrResultPhotoSize;
  finishing : bool;
  signals : bool;
  notified : bool;
  watcher : bool;
  workers : nat;
  pc : main_pc;
  outside : world;
  state : status
}.

Definition set_stop (c : signal_chan) (s : sys) : sys :=
  {| stop := c; grab_pictures := grab_pictures s; finishing := finishing s;
     signals := signals s; notified := notified s; watcher := watcher s;
     workers := workers s; pc := pc s; outside := outside s; state := state s |}.

Definition set_grab_pictures (q : list FlickrResultPhotoSize) (s : sys) : sys :=
  {| stop := stop s; grab_pictures := q; finishing := finishing s;
     signals := signals s; notified := notified s; watcher := watcher s;
     workers := workers s; pc := pc s; outside := outside s; state := state s |}.

Definition set_finishing (b : bool) (s : sys) : sys :=
  {| stop := stop s; grab_pictures := grab_pictures s; finishing := b;
     signals := signals s; notified := notified s; watcher := watcher s;
     workers := workers s; pc := pc s; outside := outside s; state := state s |}.

Definition set_signals (b : bool) (s : sys) : sys :=
  {| stop := stop s; grab_pictures := grab_pictures s; finishing := finishing s;
     signals := b; notified := notified s; watcher := watcher s;
     workers := workers s; pc := pc s; outside := outside s; state := state s |}.

Definition set_notified (b : bool) (s : sys) : sys :=
  {| stop := stop s; grab_pictures := grab_pictures s; finishing := finishing s;
     signals := signals s; notified := b; watcher := watcher s;
     workers := workers s; pc := pc s; outside := outside s; state := state s |}.

Definition set_watcher (b : bool) (s : sys) : sys :=
  {| stop := stop s; grab_pictures := grab_pictures s; finishing := finishing s;
     signals := signals s; notified := notified s; watcher := b;
     workers := workers s; pc := pc s; outside := outside s; state := state s |}.

Definition set_workers (n : nat) (s : sys) : sys :=
  {| stop := stop s; grab_pictures := grab_pictures s; finishing := finishing s;
     signals := signals s; notified := notified s; watcher := watcher s;
     workers := n; pc := pc s; outside := outside s; state := state s |}.

Definition set_pc (p : main_pc) (s : sys) : sys :=
  {| stop := stop s; grab_pictures := grab_pictures s; finishing := finishing s;
     signals := signals s; notified := notified s; watcher := watcher s;
     workers := workers s; pc := p; outside := outside s; state := state s |}.

Definition set_outside (w : world) (s : sys) : sys :=
  {| stop := stop s; grab_pictures := grab_pictures s; finishing := finishing s;
     signals := signals s; notified := notified s; watcher := watcher s;
     workers := workers s; pc := pc s; outside := w; state := state s |}.

Definition set_state (st : status) (s : sys) : sys :=
  {| stop := stop s; grab_pictures := grab_pictures s; finishing := finishing s;
     signals := signals s; notified := notified s; watcher := watcher s;
     workers := workers s; pc := pc s; outside := outside s; state := st |}.

Definition say (l : log_line) (s : sys) : sys :=
  set_outside (emit (EvLog l) (outside s)) s.

Definition sleep (ns : Z) (s : sys) : sys :=
  set_outside (emit (EvSleep ns) (outside s)) s.

(** The goroutines, and the operating system delivering [os.Interrupt]. *)
Inductive actor := Main | Watcher | Worker | Interrupt.

Section Process.

Context (E : env) (cfg : config) (searchClause : string).

(** The state [main] has built when it calls [fetchFlickrData] (lines
    62-103), [workers] counting the goroutines of lines 97-100; or the state
    it dies in when the [make] of line 74 panics: the deferred line 68 has
    then run, the lines 96 and 102 have not.  Nothing moves in that state;
    its [workers] field keeps the number asked for. *)
Definition init (files : gmap string (list Byte.byte)) : sys :=
  {| stop := Open;
     grab_pictures := [];
     finishing := false;
     signals := false;
     notified := true;
     watcher := true;
     workers := Z.to_nat (concurrency cfg);
     pc := MCrawl (CPage 1);
     outside := {| fs := files; clock := 0;
                   trace := if make_panics (wrap_int (100 * concurrency cfg))
                            then [EvLog (LogGrabbing searchClause);
                                  EvLog LogFinished]
                            else [EvLog (LogGrabbing searchClause);
                                  EvLog LogStartingGoroutines;
                                  EvLog LogStartGrabbingUris] |};
     state := if make_panics (wrap_int (100 * concurrency cfg))
              then Panicked else Running |}.

(** The main goroutine: one crawler step (lines 103, 120-193), one
    iteration of the drain loop (lines 105-113), or the wait for the
    workers and the return of [main] (lines 115-118, and the deferred
    line 68).  A panic of [main] itself runs the deferred line before the
    process dies. *)
Definition main_step (choice : nat) (s : sys) : sys :=
  match pc s with
  | MCrawl c =>
    let '(c', q', w') :=
      crawler_step E cfg searchClause choice (stop s) (grab_pictures s) c (outside s) in
    let s' := set_outside w' (set_grab_pictures q' s) in
    match c' with
    | CFatal => set_state (Exited 1) s'
    | CReturned => set_pc MDrain s'
    | _ => set_pc (MCrawl c') s'
    end
  | MDrain =>
    if finishing s then say LogWaiting (set_pc MWait s)
    else if (length (grab_pictures s) =? 0)%nat then
      match close (stop s) with
      | Some c => say LogWaiting (set_pc MWait (set_stop c s))
      | None => set_state Panicked (say LogFinished s)
      end
    else sleep 1 s
  | MWait =>
    match workers s with
    | O => set_state (Exited 0) (say LogFinished (set_pc MDone s))
    | S _ => s
    end
  | MDone => s
  end.

(** The signal goroutine (lines 78-94). *)
Definition watcher_step (s : sys) : sys :=
  if watcher s then
    if signals s then
      let s1 := set_finishing true (say LogCaughtSignal (set_signals false s)) in
      match close (stop s1) with
      | Some c => set_watcher false (set_notified false (set_stop c s1))
      | None => set_state Panicked s1
      end
    else sleep 1 s
  else s.

(** One iteration of one of the workers still running: a receive comes
    with the whole handling of the item received. *)
Definition worker_step (choice : nat) (s : sys) : sys :=
  match workers s with
  | O => s
  | S n =>
    let '(again, q', w') :=
      grabPictures_iter E cfg choice (stop s) (grab_pictures s) (outside s) in
    set_workers (if again then S n else n)
                (set_outside w' (set_grab_pictures q' s))
  end.

(** [signal.Notify] relays the signal without blocking into a buffer of
    one; after [signal.Stop] the signal has its default action. *)
Definition interrupt (s : sys) : sys :=
  if notified s then set_signals true s else set_state Killed s.

Definition step (a : actor) (choice : nat) (s : sys) : sys :=
  match state s with
  | Running =>
    match a with
    | Main => main_step choice s
    | Watcher => watcher_step s
    | Worker => worker_step choice s
    | Interrupt => interrupt s
    end
  | _ => s
  end.

(** A run under a schedule: who moves, and what its select picks. *)
Definition run (schedule : list (actor * nat)) (s : sys) : sys :=
  foldl (fun s '(a, choice) => step a choice s) s schedule.

End Process.

(** ** Auxiliary predicates *)

(** What a worker may do while it handles [sized]. *)
Definition worker_event (cfg : config) (sized : FlickrResultPhotoSize)
    (e : event) : Prop :=
  match e with
  | EvGet url => url = Url sized
  | EvCreate path _ => path = targetDirectory cfg +:+ "/" +:+ Filename sized
  | EvCopy path _ => path = targetDirectory cfg +:+ "/" +:+ Filename sized
  | EvLog (LogFetching filename _ _) => filename = Filename sized
  | EvLog (LogHardError _) => True
  | EvSleep _ => True
  | _ => False
  end.

(** Events that are neither a page fetch nor an offer to the queue. *)
Definition quiet (e : event) : Prop :=
  match e with
  | EvDo _ => False
  | EvOffer _ => False
  | _ => True
  end.

(** [fetchFlickrData] is over: [main] is in its drain loop or beyond. *)
Definition crawler_done (s : sys) : Prop :=
  match pc s with
  | MCrawl _ => False
  | _ => True
  end.

(** Lexical resolution of a slash-separated path, as the kernel walks it
    when no component is a symbolic link: [split_path] cuts at each slash,
    [resolve] drops empty and dot components and lets a dot-dot component
    pop the last one. *)
Fixpoint split_path (acc : string) (p : string) : list string :=
  match p with
  | EmptyString => [String.rev acc]
  | String c p' =>
    if Ascii.eqb c "/"%char then String.rev acc :: split_path EmptyString p'
    else split_path (String c acc) p'
  end.

Fixpoint resolve (stack : list string) (components : list string) : list string :=
  match components with
  | [] => rev stack
  | c :: cs =>
    if String.eqb c EmptyString then resolve stack cs
    else if String.eqb c "." then resolve stack cs
    else if String.eqb c ".." then resolve (tail stack) cs
    else resolve (c :: stack) cs
  end.

Definition resolved (p : string) : list string := resolve [] (split_path EmptyString p).

(** ** Concrete configurations and worlds used below *)

Definition original (name : string) : FlickrResultPhotoSize :=
  {| Label := "Original";
     Filename := name +:+ ".jpg";
     Url := "http://farm1.staticflickr.com/" +:+ name +:+ "_o.jpg" |}.

Definition photo (label name : string) : FlickrResultPhoto :=
  {| Name := name; Description := EmptyString; Sizes := {[ label := original name ]} |}.

Definition flags : config :=
  {| targetDirectory := "/tmp"; sizeWanted := "o"; maxPages := 3; concurrency := 4 |}.

Definition two_cats : FlickrResult :=
  {| Photos := [photo "o" "cat1"; photo "o" "cat2"] |}.

Definition json_page : response :=
  {| ContentType := "application/json"; ContentLength := 2;
     Body := [Byte.x7b; Byte.x7d]; BodyErr := false |}.

Definition html_page : response :=
  {| ContentType := "text/html"; ContentLength := 1;
     Body := [Byte.x3c]; BodyErr := false |}.

Definition jpeg : response :=
  {| ContentType := "image/jpeg"; ContentLength := 4;
     Body := [Byte.xff; Byte.xd8; Byte.xff; Byte.xd9]; BodyErr := false |}.

(** Every page lists the same two pictures, every download and every file
    creation succeeds. *)
Definition healthy : env :=
  {| search_url := fun clause page => "http://www.flickr.com/search?data=1&q=" +:+ clause;
     http_NewRequest := fun _ => true;
     client_Do := fun _ _ => Some json_page;
     json_Unmarshal := fun _ => Some two_cats;
     http_Get := fun _ _ => Some jpeg;
     os_Create := fun _ _ => true;
     io_Copy := fun _ _ => None |}.

(** The image host cannot be reached. *)
Definition images_down : env :=
  {| search_url := search_url healthy;
     http_NewRequest := http_NewRequest healthy;
     client_Do := client_Do healthy;
     json_Unmarshal := json_Unmarshal healthy;
     http_Get := fun _ _ => None;
     os_Create := os_Create healthy;
     io_Copy := io_Copy healthy |}.

(** The target directory refuses new files. *)
Definition disk_readonly : env :=
  {| search_url := search_url healthy;
     http_NewRequest := http_NewRequest healthy;
     client_Do := client_Do healthy;
     json_Unmarshal := json_Unmarshal healthy;
     http_Get := http_Get healthy;
     os_Create := fun _ _ => false;
     io_Copy := io_Copy healthy |}.

(** The search endpoint cannot be reached. *)
Definition search_down : env :=
  {| search_url := search_url healthy;
     http_NewRequest := http_NewRequest healthy;
     client_Do := fun _ _ => None;
     json_Unmarshal := json_Unmarshal healthy;
     http_Get := http_Get healthy;
     os_Create := os_Create healthy;
     io_Copy := io_Copy healthy |}.

(** The search endpoint answers with an HTML page. *)
Definition search_html : env :=
  {| search_url := search_url healthy;
     http_NewRequest := http_NewRequest healthy;
     client_Do := fun _ _ => Some html_page;
     json_Unmarshal := json_Unmarshal healthy;
     http_Get := http_Get healthy;
     os_Create := os_Create healthy;
     io_Copy := io_Copy healthy |}.

(** A response whose body breaks off after two of its four bytes. *)
Definition cut_short : response :=
  {| ContentType := "image/jpeg"; ContentLength := 4;
     Body := [Byte.xff; Byte.xd8]; BodyErr := true |}.

(** Every download breaks off. *)
Definition bodies_cut_short : env :=
  {| search_url := search_url healthy;
     http_NewRequest := http_NewRequest healthy;
     client_Do := client_Do healthy;
     json_Unmarshal := json_Unmarshal healthy;
     http_Get := fun _ _ => Some cut_short;
     os_Create := os_Create healthy;
     io_Copy := io_Copy healthy |}.

(** The disk takes two bytes of every file and then is full. *)
Definition disk_full : env :=
  {| search_url := search_url healthy;
     http_NewRequest := http_NewRequest healthy;
     client_Do := client_Do healthy;
     json_Unmarshal := json_Unmarshal healthy;
     http_Get := http_Get healthy;
     os_Create := os_Create healthy;
     io_Copy := fun _ _ => Some 2%nat |}.

Definition blank : world := {| fs := ∅; clock := 0; trace := [] |}.

(** Page 1 is fetched and its first picture enqueued; then an interrupt
    arrives and the signal goroutine closes [stop]. *)
Definition interrupted_mid_page : sys :=
  run healthy flags "cats"
      [(Main, 0%nat); (Main, 0%nat); (Interrupt, 0%nat); (Watcher, 0%nat)]
      (init flags "cats" ∅).

(** Page 1 is fetched; an interrupt arrives and [stop] is closed before the
    crawler looks at the first picture. *)
Definition interrupted_before_offers : sys :=
  run healthy flags "cats"
      [(Main, 0%nat); (Interrupt, 0%nat); (Watcher, 0%nat)]
      (init flags "cats" ∅).

(** An undisturbed run: the crawler walks its three pages (thirteen steps
    of [main]), the workers download the six pictures, and [main] finds the
    queue empty and closes [stop] itself. *)
Definition drained : sys :=
  run healthy flags "cats"
      (replicate 13 (Main, 0%nat) ++ replicate 6 (Worker, 0%nat) ++ [(Main, 0%nat)])
      (init flags "cats" ∅).

(** ** Further observations on traces *)

(** The backoff delays slept, and their sum. *)
Definition sleeps (t : list event) : list Z :=
  omap (fun e => match e with EvSleep ns => Some ns | _ => None end) t.

Definition slept (t : list event) : Z := foldr Z.add 0 (sleeps t).

(** The filenames the crawler reports as pushed on the channel. *)
Definition pushed (t : list event) : list string :=
  omap (fun e => match e with EvLog (LogPushed filename) => Some filename | _ => None end) t.

(** The three lines written through [log.Fatalf]. *)
Definition fatal_line (l : log_line) : Prop :=
  match l with
  | FatalCreatingRequest => True
  | FatalGettingResponse => True
  | FatalReadingBody => True
  | _ => False
  end.

(** A photo is listed when it stands on a page the decoder accepts; a
    descriptor is wanted when it is the entry of a listed photo under the
    size asked for. *)
Definition listed (E : env) (photo : FlickrResultPhoto) : Prop :=
  exists body result,
    json_Unmarshal E body = Some result /\ photo ∈ Photos result.

Definition wanted (E : env) (cfg : config) (sized : FlickrResultPhotoSize) : Prop :=
  exists photo, listed E photo /\ Sizes photo !! sizeWanted cfg = Some sized.

(** The descriptors the crawler would still offer from the page it is on:
    the wanted entries of the photos it has not visited yet. *)
Definition pend (cfg : config) (c : crawler_pc) : list FlickrResultPhotoSize :=
  match c with
  | CPhotos _ rest => omap (fun photo => Sizes photo !! sizeWanted cfg) rest
  | _ => []
  end.

(** The paths [os.Create] was called with, whether it succeeded or not. *)
Definition create_calls (t : list event) : list string :=
  omap (fun e => match e with EvCreate path _ => Some path | _ => None end) t.

(** The number of GETs that were answered: each logs its "fetching" line. *)
Definition answered (t : list event) : nat :=
  length (omap (fun e => match e with
                         | EvLog (LogFetching _ _ _) => Some tt
                         | _ => None
                         end) t).

(** A plain name: one component that is neither empty nor dot nor dot-dot. *)
Fixpoint has_slash (s : string) : bool :=
  match s with
  | EmptyString => false
  | String c s' => Ascii.eqb c "/"%char || has_slash s'
  end.

Definition plain (name : string) : Prop :=
  has_slash name = false /\ name <> EmptyString /\ name <> "." /\ name <> "..".

(** * Properties *)

(** Evaluate closed integer arithmetic and comparisons, nothing else. *)
Ltac zcompute :=
  cbv [Z.add Z.mul Z.ltb Z.leb Z.compare Pos.add Pos.add_carry Pos.succ
       Pos.mul Pos.compare Pos.compare_cont].

(** ** Select *)

Lemma select_singleton {A} choice (x : A) : select choice [x] = Some x.
Proof. unfold select. cbn [length]. rewrite Nat.mod_1_r. reflexivity. Qed.

Lemma select_elem {A} choice (ready : list A) x :
  select choice ready = Some x -> x ∈ ready.
Proof.
  unfold select. destruct ready as [|y ready]; [discriminate|].
  intros H. eapply list_elem_of_lookup_2, H.
Qed.

Lemma select_ready {A} choice (ready : list A) :
  ready <> [] -> is_Some (select choice ready).
Proof.
  unfold select. destruct ready as [|y ready]; [congruence|]. intros _.
  apply lookup_lt_is_Some. apply Nat.mod_upper_bound. cbn [length]. lia.
Qed.

(** ** Traces *)

Lemma page_fetches_app t1 t2 :
  page_fetches (t1 ++ t2) = (page_fetches t1 ++ page_fetches t2)%list.
Proof. apply omap_app. Qed.

Lemma offers_app t1 t2 : offers (t1 ++ t2) = (offers t1 ++ offers t2)%list.
Proof. apply omap_app. Qed.

Lemma created_app t1 t2 : created (t1 ++ t2) = (created t1 ++ created t2)%list.
Proof. apply omap_app. Qed.

Lemma quiet_page_fetches new : Forall quiet new -> page_fetches new = [].
Proof.
  induction 1 as [|e new He _ IH]; [reflexivity|].
  destruct e; cbn in *; try assumption; contradiction.
Qed.

Lemma quiet_offers new : Forall quiet new -> offers new = [].
Proof.
  induction 1 as [|e new He _ IH]; [reflexivity|].
  destruct e; cbn in *; try assumption; contradiction.
Qed.

Lemma worker_event_quiet cfg sized e : worker_event cfg sized e -> quiet e.
Proof. destruct e as [[]| | | | | |]; cbn; tauto. Qed.

(** ** Worker *)

Section WorkerFacts.

Context (E : env) (cfg : config).

Lemma fetch_loop_unfold fuel sized retries w :
  fetch_loop E cfg (S fuel) sized retries w =
    if retries <? 5 then
      let w1 := tick (emit (EvGet (Url sized)) w) in
      match http_Get E (clock w) (Url sized) with
      | Some res =>
        let w2 := emit (EvLog (LogFetching (Filename sized) (ContentLength res) retries)) w1 in
        let ok := os_Create E (clock w2) (destination cfg sized) in
        let w3 := tick (emit (EvCreate (destination cfg sized) ok) w2) in
        if ok then
          Some (Saved,
                tick (emit (EvCopy (destination cfg sized) (Body res))
                        (write_file (destination cfg sized)
                           (copied (io_Copy E (clock w3) (destination cfg sized)) (Body res))
                           w3)))
        else fetch_loop E cfg fuel sized (retries + 1) w3
      | None =>
        fetch_loop E cfg fuel sized (retries + 1) (emit (EvSleep (2 * (retries + 1))) w1)
      end
    else Some (GaveUp retries, w).
Proof. reflexivity. Qed.

(** The loop returns: six rounds of fuel are never used up. *)
Lemma fetch_loop_total sized fuel retries w :
  (Z.to_nat (5 - retries) < fuel)%nat ->
  is_Some (fetch_loop E cfg fuel sized retries w).
Proof.
  revert retries w. induction fuel as [|fuel IH]; intros retries w Hf; [lia|].
  rewrite fetch_loop_unfold. destruct (Z.ltb_spec retries 5) as [Hlt|Hge]; [|eauto].
  cbv zeta. destruct (http_Get E (clock w) (Url sized)) as [res|].
  - destruct (os_Create E _ _); [eauto|]. apply IH. lia.
  - apply IH. lia.
Qed.

(** What the loop leaves behind, by the way it ended.  When it ended
    through [break nextPicture], the last attempt is the only one that
    created a file; [t] is the time of its GET: the create came at [t + 1],
    the copy at [t + 2]. *)
Lemma fetch_loop_spec fuel sized retries w r w' :
  fetch_loop E cfg fuel sized retries w = Some (r, w') ->
  exists new,
    trace w' = (trace w ++ new)%list /\
    Forall (worker_event cfg sized) new /\
    match r with
    | Saved =>
      exists t res try before,
        http_Get E t (Url sized) = Some res /\
        new = (before ++
               [EvGet (Url sized);
                EvLog (LogFetching (Filename sized) (ContentLength res) try);
                EvCreate (destination cfg sized) true;
                EvCopy (destination cfg sized) (Body res)])%list /\
        created before = [] /\
        fs w' = <[destination cfg sized :=
                    copied (io_Copy E (S (S t)) (destination cfg sized)) (Body res)]>
                  (fs w) /\
        clock w' = S (S (S t)) /\
        os_Create E (S t) (destination cfg sized) = true
    | GaveUp final =>
      created new = [] /\ fs w' = fs w /\ final = Z.max retries 5
    end.
Proof.
  revert retries w. induction fuel as [|fuel IH]; intros retries w; [discriminate|].
  rewrite fetch_loop_unfold. destruct (Z.ltb_spec retries 5) as [Hlt|Hge].
  - cbv zeta. destruct (http_Get E (clock w) (Url sized)) as [res|] eqn:Hget.
    + destruct (os_Create E _ _) eqn:Hcreate.
      * intros [= <- <-].
        exists [EvGet (Url sized);
                EvLog (LogFetching (Filename sized) (ContentLength res) retries);
                EvCreate (destination cfg sized) true;
                EvCopy (destination cfg sized) (Body res)].
        split; [cbn; rewrite <- !app_assoc; reflexivity|].
        split; [repeat constructor|].
        exists (clock w), res, retries, [].
        repeat split; assumption.
      * intros Hloop. destruct (IH _ _ Hloop) as (new & Htrace & Hall & Hr).
        exists ([EvGet (Url sized);
                 EvLog (LogFetching (Filename sized) (ContentLength res) retries);
                 EvCreate (destination cfg sized) false] ++ new)%list.
        split; [rewrite Htrace; cbn; rewrite <- !app_assoc; reflexivity|].
        split; [repeat constructor; assumption|].
        destruct r as [|final].
        -- destruct Hr as (t & res' & try & before & Ht & -> & Hnone & Hfs & Hclock & Hok).
           exists t, res', try,
             ([EvGet (Url sized);
               EvLog (LogFetching (Filename sized) (ContentLength res) retries);
               EvCreate (destination cfg sized) false] ++ before)%list.
           repeat split; assumption.
        -- destruct Hr as (Hnone & Hfs & ->).
           repeat split; [rewrite created_app, Hnone; reflexivity|assumption|lia].
    + intros Hloop. destruct (IH _ _ Hloop) as (new & Htrace & Hall & Hr).
      exists ([EvGet (Url sized); EvSleep (2 * (retries + 1))] ++ new)%list.
      split; [rewrite Htrace; cbn; rewrite <- !app_assoc; reflexivity|].
      split; [repeat constructor; assumption|].
      destruct r as [|final].
      * destruct Hr as (t & res' & try & before & Ht & -> & Hnone & Hfs & Hclock & Hok).
        exists t, res', try,
          ([EvGet (Url sized); EvSleep (2 * (retries + 1))] ++ before)%list.
        repeat split; assumption.
      * destruct Hr as (Hnone & Hfs & ->).
        repeat split; [rewrite created_app, Hnone; reflexivity|assumption|lia].
  - intros [= <- <-]. exists []. rewrite app_nil_r.
    repeat split; [constructor|lia].
Qed.

(** A worker handling an item touches nothing but that item. *)
Lemma fetch_picture_events sized w :
  exists new,
    trace (fetch_picture E cfg sized w) = (trace w ++ new)%list /\
    Forall (worker_event cfg sized) new.
Proof.
  unfold fetch_picture.
  destruct (fetch_loop_total sized 6 0 w) as [[r w'] Hloop]; [cbn; lia|].
  rewrite Hloop. destruct (fetch_loop_spec _ _ _ _ _ _ Hloop) as (new & Htrace & Hall & _).
  destruct r as [|final].
  - exists new. split; assumption.
  - exists (new ++ [EvLog (LogHardError final)])%list. split.
    + cbn. rewrite Htrace, <- app_assoc. reflexivity.
    + apply Forall_app. split; [assumption|repeat constructor].
Qed.

End WorkerFacts.

(** ** Path resolution *)

Lemma split_path_app acc a b :
  split_path acc (a +:+ String "/" b) = (split_path acc a ++ split_path EmptyString b)%list.
Proof.
  revert acc. induction a as [|c a IH]; intros acc.
  - reflexivity.
  - change (String c a +:+ String "/" b) with (String c (a +:+ String "/" b)).
    cbn [split_path]. destruct (Ascii.eqb c "/"); rewrite IH; reflexivity.
Qed.

Lemma resolve_app stack l1 l2 :
  resolve stack (l1 ++ l2) = resolve (rev (resolve stack l1)) l2.
Proof.
  revert stack. induction l1 as [|c l1 IH]; intros stack; cbn.
  - rewrite rev_involutive. reflexivity.
  - repeat (destruct (String.eqb c _)); apply IH.
Qed.

(** ** Claims about the worker *)

(** C4. For a descriptor whose source URL always fails at the transport
    level, the worker issues exactly five GETs, sleeps 2, 4, 6, 8 and 10
    time units after the failed attempts, logs the hard error, leaves the
    file system alone, and the iteration that dequeued the item ends with the
    worker looping again. *)
Theorem C4_bounded_retry E cfg sized w choice queue :
  (forall t, http_Get E t (Url sized) = None) ->
  trace (fetch_picture E cfg sized w) =
    (trace w ++ [EvGet (Url sized); EvSleep 2; EvGet (Url sized); EvSleep 4;
                 EvGet (Url sized); EvSleep 6; EvGet (Url sized); EvSleep 8;
                 EvGet (Url sized); EvSleep 10; EvLog (LogHardError 5)])%list
  /\ fs (fetch_picture E cfg sized w) = fs w
  /\ grabPictures_iter E cfg choice Open (sized :: queue) w
     = (true, queue, fetch_picture E cfg sized w).
Proof.
  intros H.
  assert (Hloop : fetch_loop E cfg 6 sized 0 w = Some (GaveUp 5,
     emit (EvSleep 10) (tick (emit (EvGet (Url sized))
    (emit (EvSleep 8) (tick (emit (EvGet (Url sized))
    (emit (EvSleep 6) (tick (emit (EvGet (Url sized))
    (emit (EvSleep 4) (tick (emit (EvGet (Url sized))
    (emit (EvSleep 2) (tick (emit (EvGet (Url sized)) w)))))))))))))))).
  { do 6 (rewrite fetch_loop_unfold; rewrite ?H; zcompute; cbv zeta). reflexivity. }
  split; [|split].
  - unfold fetch_picture. rewrite Hloop. cbn. rewrite <- !app_assoc. reflexivity.
  - unfold fetch_picture. rewrite Hloop. reflexivity.
  - unfold grabPictures_iter. cbn [worker_ready app].
    rewrite select_singleton. reflexivity.
Qed.

Lemma C4_bounded_retry_witness :
  (forall t, http_Get images_down t (Url (original "cat1")) = None) /\
  trace (fetch_picture images_down flags (original "cat1") blank) =
    [EvGet (Url (original "cat1")); EvSleep 2;
     EvGet (Url (original "cat1")); EvSleep 4;
     EvGet (Url (original "cat1")); EvSleep 6;
     EvGet (Url (original "cat1")); EvSleep 8;
     EvGet (Url (original "cat1")); EvSleep 10; EvLog (LogHardError 5)].
Proof.
  split; [reflexivity|].
  apply (C4_bounded_retry images_down flags (original "cat1") blank 0%nat []).
  reflexivity.
Defined.

(** C3 (as the code has it).  An attempt whose GET succeeds ends the retry
    loop only when the destination file is created as well.  When the
    creation fails nothing is logged and nothing sleeps: the loop goes
    straight to the next attempt, which issues another GET, and after the
    fifth attempt it runs out like any other failure. *)
Theorem C3_create_failure_retries E cfg sized fuel retries w res :
  retries < 5 ->
  (Z.to_nat (5 - retries) < fuel)%nat ->
  http_Get E (clock w) (Url sized) = Some res ->
  exists r w',
    fetch_loop E cfg fuel sized retries w = Some (r, w') /\
    let first :=
      [EvGet (Url sized);
       EvLog (LogFetching (Filename sized) (ContentLength res) retries)] in
    if os_Create E (S (clock w)) (destination cfg sized) then
      r = Saved /\
      trace w' = (trace w ++ first ++
                  [EvCreate (destination cfg sized) true;
                   EvCopy (destination cfg sized) (Body res)])%list
    else if retries <? 4 then
      exists more,
        trace w' = (trace w ++ first ++
                    [EvCreate (destination cfg sized) false;
                     EvGet (Url sized)] ++ more)%list
    else
      r = GaveUp 5 /\
      trace w' = (trace w ++ first ++ [EvCreate (destination cfg sized) false])%list.
Proof.
  intros Hlt Hfuel Hget.
  destruct fuel as [|fuel]; [lia|].
  rewrite fetch_loop_unfold. rewrite (proj2 (Z.ltb_lt _ _) Hlt), Hget. cbv zeta.
  cbn [clock emit tick].
  destruct (os_Create E (S (clock w)) (destination cfg sized)).
  - eexists _, _. split; [reflexivity|]. split; [reflexivity|].
    cbn. rewrite <- !app_assoc. reflexivity.
  - destruct (Z.ltb_spec retries 4) as [Hlt4|Hge4].
    + destruct fuel as [|fuel]; [lia|].
      rewrite fetch_loop_unfold.
      rewrite (proj2 (Z.ltb_lt (retries + 1) 5)) by lia. cbv zeta.
      match goal with
      | |- context [match ?g with Some _ => _ | None => ?k end] =>
        destruct g as [res'|]
      end.
      * match goal with
        | |- context [if ?c then _ else _] => destruct c
        end.
        -- eexists _, _. split; [reflexivity|]. eexists.
           cbn. rewrite <- !app_assoc. cbn. reflexivity.
        -- match goal with
           | |- context [fetch_loop E cfg fuel sized ?n ?w0] =>
             destruct (fetch_loop_total E cfg sized fuel n w0) as [[r w'] Hloop]; [lia|];
             rewrite Hloop;
             destruct (fetch_loop_spec _ _ _ _ _ _ _ _ Hloop) as (new & Htrace & _)
           end.
           eexists _, _. split; [reflexivity|]. eexists.
           rewrite Htrace. cbn. rewrite <- !app_assoc. cbn. reflexivity.
      * match goal with
        | |- context [fetch_loop E cfg fuel sized ?n ?w0] =>
          destruct (fetch_loop_total E cfg sized fuel n w0) as [[r w'] Hloop]; [lia|];
          rewrite Hloop;
          destruct (fetch_loop_spec _ _ _ _ _ _ _ _ Hloop) as (new & Htrace & _)
        end.
        eexists _, _. split; [reflexivity|]. eexists.
        rewrite Htrace. cbn. rewrite <- !app_assoc. cbn. reflexivity.
    + assert (retries = 4) as -> by lia.
      destruct fuel as [|fuel]; [cbn in Hfuel; lia|].
      rewrite fetch_loop_unfold. zcompute.
      eexists _, _. split; [reflexivity|]. split; [reflexivity|].
      cbn. rewrite <- !app_assoc. reflexivity.
Qed.

Lemma C3_create_failure_retries_witness :
  0 < 5 /\
  (Z.to_nat (5 - 0) < 6)%nat /\
  http_Get disk_readonly (clock blank) (Url (original "cat1")) = Some jpeg /\
  exists r w',
    fetch_loop disk_readonly flags 6 (original "cat1") 0 blank = Some (r, w') /\
    exists more,
      trace w' =
        ([EvGet (Url (original "cat1")); EvLog (LogFetching "cat1.jpg" 4 0);
          EvCreate "/tmp/cat1.jpg" false; EvGet (Url (original "cat1"))] ++ more)%list.
Proof.
  split; [lia|]. split; [vm_compute; lia|]. split; [reflexivity|].
  exact (C3_create_failure_retries disk_readonly flags (original "cat1") 6 0 blank jpeg
           ltac:(lia) ltac:(vm_compute; lia) eq_refl).
Defined.

(** C3, the claim as written, fails: with every GET succeeding and the
    target directory refusing new files, the first GET succeeds and the
    worker still goes on to issue all five. *)
Lemma C3_counterexample :
  http_Get disk_readonly 0 (Url (original "cat1")) = Some jpeg /\
  downloads (trace (fetch_picture disk_readonly flags (original "cat1") blank)) =
    [Url (original "cat1"); Url (original "cat1"); Url (original "cat1");
     Url (original "cat1"); Url (original "cat1")] /\
  last (trace (fetch_picture disk_readonly flags (original "cat1") blank)) =
    Some (EvLog (LogHardError 5)).
Proof. repeat split; reflexivity. Qed.

(** C8 (as the code has it).  When the worker leaves the retry loop through
    [break nextPicture], the item's handling has created exactly one file, at
    [targetDirectory/filename], in its last attempt: the one whose GET, at
    time [t], was answered with [res] and whose create succeeded; the
    attempts before it created nothing.  Whatever the path held before, it now
    holds what reached the file of the bytes the body of [res] yielded: a
    prefix of them, all of them when no write failed.  Neither a read error
    of the body nor a write error is noticed: nothing is logged after the
    "fetching" line. *)
Theorem C8_one_file_prefix_of_body E cfg sized w w' :
  fetch_loop E cfg 6 sized 0 w = Some (Saved, w') ->
  fetch_picture E cfg sized w = w' /\
  exists t res try before,
    clock w' = S (S (S t)) /\
    http_Get E t (Url sized) = Some res /\
    os_Create E (S t) (targetDirectory cfg +:+ "/" +:+ Filename sized) = true /\
    trace w' =
      (trace w ++ before ++
       [EvGet (Url sized);
        EvLog (LogFetching (Filename sized) (ContentLength res) try);
        EvCreate (targetDirectory cfg +:+ "/" +:+ Filename sized) true;
        EvCopy (targetDirectory cfg +:+ "/" +:+ Filename sized) (Body res)])%list /\
    created before = [] /\
    fs w' !! (targetDirectory cfg +:+ "/" +:+ Filename sized)
      = Some (copied (io_Copy E (S (S t)) (targetDirectory cfg +:+ "/" +:+ Filename sized))
                     (Body res)) /\
    copied (io_Copy E (S (S t)) (targetDirectory cfg +:+ "/" +:+ Filename sized)) (Body res)
      `prefix_of` Body res /\
    (io_Copy E (S (S t)) (targetDirectory cfg +:+ "/" +:+ Filename sized) = None ->
     fs w' !! (targetDirectory cfg +:+ "/" +:+ Filename sized) = Some (Body res)).
Proof.
  intros Hloop. split; [unfold fetch_picture; rewrite Hloop; reflexivity|].
  destruct (fetch_loop_spec _ _ _ _ _ _ _ _ Hloop)
    as (new & Htrace & _ & t & res & try & before & Hget & -> & Hnone & Hfs & Hclock & Hok).
  exists t, res, try, before.
  split; [exact Hclock|]. split; [exact Hget|]. split; [exact Hok|].
  split; [exact Htrace|]. split; [exact Hnone|].
  split; [rewrite Hfs; apply lookup_insert_eq|].
  split.
  - unfold copied. destruct (io_Copy E _ _); [apply prefix_take|reflexivity].
  - intros Hall. rewrite Hfs. unfold destination. rewrite Hall. apply lookup_insert_eq.
Qed.

Lemma C8_one_file_prefix_of_body_witness :
  fetch_loop healthy flags 6 (original "cat1") 0 blank
    = Some (Saved, fetch_picture healthy flags (original "cat1") blank) /\
  fs (fetch_picture healthy flags (original "cat1") blank) !! "/tmp/cat1.jpg"
    = Some [Byte.xff; Byte.xd8; Byte.xff; Byte.xd9].
Proof.
  split; [reflexivity|].
  destruct (C8_one_file_prefix_of_body healthy flags (original "cat1") blank
              (fetch_picture healthy flags (original "cat1") blank) eq_refl)
    as (_ & t & res & try & before & _ & Hget & _ & _ & _ & _ & _ & Hfs).
  injection Hget as <-. exact (Hfs eq_refl).
Defined.

(** C8, the claim as written, fails.  On a disk that is full after two
    bytes the complete four-byte body of the answer is handed to the copy,
    the worker leaves the retry loop as after any success, with one GET and
    no error logged, and the file holds two bytes.  Likewise a download that
    breaks off after two bytes is saved as fetched. *)
Lemma C8_counterexample :
  http_Get disk_full 0 (Url (original "cat1")) = Some jpeg /\
  BodyErr jpeg = false /\
  Body jpeg = [Byte.xff; Byte.xd8; Byte.xff; Byte.xd9] /\
  fetch_loop disk_full flags 6 (original "cat1") 0 blank
    = Some (Saved, fetch_picture disk_full flags (original "cat1") blank) /\
  trace (fetch_picture disk_full flags (original "cat1") blank)
    = [EvGet (Url (original "cat1")); EvLog (LogFetching "cat1.jpg" 4 0);
       EvCreate "/tmp/cat1.jpg" true; EvCopy "/tmp/cat1.jpg" (Body jpeg)] /\
  fs (fetch_picture disk_full flags (original "cat1") blank) !! "/tmp/cat1.jpg"
    = Some [Byte.xff; Byte.xd8] /\
  BodyErr cut_short = true /\
  fetch_loop bodies_cut_short flags 6 (original "cat1") 0 blank
    = Some (Saved, fetch_picture bodies_cut_short flags (original "cat1") blank) /\
  downloads (trace (fetch_picture bodies_cut_short flags (original "cat1") blank))
    = [Url (original "cat1")] /\
  fs (fetch_picture bodies_cut_short flags (original "cat1") blank) !! "/tmp/cat1.jpg"
    = Some [Byte.xff; Byte.xd8].
Proof. repeat split; reflexivity. Qed.

(** The creation calls of an item's handling: one per answered GET, each
    with the item's destination. *)
Lemma fetch_loop_create_calls E cfg fuel sized retries w r w' :
  fetch_loop E cfg fuel sized retries w = Some (r, w') ->
  exists new,
    trace w' = (trace w ++ new)%list /\
    create_calls new = replicate (answered new) (destination cfg sized) /\
    (retries < 5 -> is_Some (http_Get E (clock w) (Url sized)) ->
     (1 <= answered new)%nat).
Proof.
  revert retries w. induction fuel as [|fuel IH]; intros retries w; [discriminate|].
  rewrite fetch_loop_unfold. destruct (Z.ltb_spec retries 5) as [Hlt|Hge].
  - cbv zeta. destruct (http_Get E (clock w) (Url sized)) as [res|] eqn:Hget.
    + destruct (os_Create E _ _).
      * intros [= <- <-]. eexists. split.
        { cbn. rewrite <- !app_assoc. reflexivity. }
        split; [reflexivity|]. intros _ _. cbn. lia.
      * intros Hloop. destruct (IH _ _ Hloop) as (new & Htrace & Hcalls & _).
        exists ([EvGet (Url sized);
                 EvLog (LogFetching (Filename sized) (ContentLength res) retries);
                 EvCreate (destination cfg sized) false] ++ new)%list.
        split; [rewrite Htrace; cbn; rewrite <- !app_assoc; reflexivity|].
        split; [|intros _ _; cbn; lia].
        change (destination cfg sized :: create_calls new
                = replicate (S (answered new)) (destination cfg sized)).
        rewrite Hcalls. reflexivity.
    + intros Hloop. destruct (IH _ _ Hloop) as (new & Htrace & Hcalls & _).
      exists ([EvGet (Url sized); EvSleep (2 * (retries + 1))] ++ new)%list.
      split; [rewrite Htrace; cbn; rewrite <- !app_assoc; reflexivity|].
      split; [exact Hcalls|]. intros _ [res Hres]. discriminate.
  - intros [= <- <-]. exists []. rewrite app_nil_r.
    split; [reflexivity|]. split; [reflexivity|]. intros Hlt. lia.
Qed.

(** A name without a slash is a single component. *)
Lemma split_path_plain acc name :
  has_slash name = false -> split_path acc name = [String.rev_app acc name].
Proof.
  revert acc. induction name as [|c name IH]; intros acc Hslash; [reflexivity|].
  cbn in Hslash. apply orb_false_iff in Hslash as [Hc Hrest].
  cbn [split_path]. rewrite Hc. rewrite IH by exact Hrest. reflexivity.
Qed.

(** C10 (as the code has it).  Whatever the filename, the worker handling a
    descriptor calls the file creation once for every GET that is answered,
    at least once when the first GET is, and each time with exactly
    [targetDirectory ++ "/" ++ filename].  The filename goes in as it came from
    the remote JSON: its components, dot-dot included, are resolved starting
    from the target directory.  So a filename that is a dot-dot component
    followed by a name other than the directory's own names a file outside the
    target directory. *)
Theorem C10_create_path_verbatim E cfg sized w :
  (exists new,
     trace (fetch_picture E cfg sized w) = (trace w ++ new)%list /\
     create_calls new
       = replicate (answered new) (targetDirectory cfg +:+ "/" +:+ Filename sized) /\
     (is_Some (http_Get E (clock w) (Url sized)) -> (1 <= answered new)%nat)) /\
  resolved (targetDirectory cfg +:+ "/" +:+ Filename sized) =
    resolve (rev (resolved (targetDirectory cfg)))
            (split_path EmptyString (Filename sized)) /\
  (forall base d name,
     resolved (targetDirectory cfg) = (base ++ [d])%list ->
     plain name -> name <> d ->
     Filename sized = "../" +:+ name ->
     resolved (targetDirectory cfg +:+ "/" +:+ Filename sized) = (base ++ [name])%list /\
     ~ resolved (targetDirectory cfg)
         `prefix_of` resolved (targetDirectory cfg +:+ "/" +:+ Filename sized)).
Proof.
  assert (Hres : resolved (targetDirectory cfg +:+ "/" +:+ Filename sized) =
    resolve (rev (resolved (targetDirectory cfg)))
            (split_path EmptyString (Filename sized))).
  { unfold resolved.
    change ("/" +:+ Filename sized) with (String "/" (Filename sized)).
    rewrite split_path_app, resolve_app. reflexivity. }
  split; [|split; [exact Hres|]].
  - unfold fetch_picture.
    destruct (fetch_loop_total E cfg sized 6 0 w) as [[r w'] Hloop]; [cbn; lia|].
    rewrite Hloop.
    destruct (fetch_loop_create_calls _ _ _ _ _ _ _ _ Hloop) as (new & Htrace & Hcalls & Hone).
    destruct r as [|final].
    + exists new. split; [exact Htrace|]. split; [exact Hcalls|].
      intros Hget. apply Hone; [lia|exact Hget].
    + exists (new ++ [EvLog (LogHardError final)])%list. split.
      { cbn. rewrite Htrace, <- app_assoc. reflexivity. }
      unfold create_calls, answered in *. rewrite !omap_app. cbn.
      rewrite !app_nil_r. split; [exact Hcalls|].
      intros Hget. apply Hone; [lia|exact Hget].
  - intros base d name Hdir (Hslash & Hne & Hdot & Hdots) Hd Hname.
    assert (Hin : resolved (targetDirectory cfg +:+ "/" +:+ Filename sized)
                  = (base ++ [name])%list).
    { rewrite Hres, Hdir, Hname, rev_app_distr. cbn [rev app].
      change ("../" +:+ name) with (String "." (String "." (String "/" name))).
      cbn [split_path Ascii.eqb Bool.eqb]. cbn.
      rewrite split_path_plain by exact Hslash. cbn.
      destruct (String.eqb_spec name EmptyString) as [->|_]; [congruence|].
      destruct (String.eqb_spec name ".") as [->|_]; [congruence|].
      destruct (String.eqb_spec name "..") as [->|_]; [congruence|].
      cbn. rewrite rev_involutive. reflexivity. }
    split; [exact Hin|].
    rewrite Hin, Hdir. intros [k Hk].
    rewrite <- app_assoc in Hk. apply app_inv_head in Hk.
    injection Hk as Hk _. congruence.
Qed.

Lemma C10_create_path_verbatim_witness :
  plain "passwd" /\
  resolved (targetDirectory flags) = ([] ++ ["tmp"])%list /\
  resolved (targetDirectory flags +:+ "/" +:+ "../passwd") = ([] ++ ["passwd"])%list /\
  ~ resolved (targetDirectory flags)
      `prefix_of` resolved (targetDirectory flags +:+ "/" +:+ "../passwd").
Proof.
  assert (Hplain : plain "passwd") by (repeat split; discriminate).
  split; [exact Hplain|]. split; [reflexivity|].
  destruct (C10_create_path_verbatim healthy flags
              {| Label := "Original"; Filename := "../passwd";
                 Url := "http://farm1.staticflickr.com/x" |} blank)
    as (_ & _ & Hout).
  apply (Hout [] "tmp" "passwd"); [reflexivity|exact Hplain|discriminate|reflexivity].
Defined.

(** C10, the claim as written, fails: a path separator or a dot-dot
    component in the filename does not by itself take the file out of the
    target directory. *)
Lemma C10_counterexample :
  has_slash "sub/cat.jpg" = true /\
  resolved (destination flags
              {| Label := "Original"; Filename := "sub/cat.jpg";
                 Url := "http://farm1.staticflickr.com/x" |})
    = (resolved (targetDirectory flags) ++ ["sub"; "cat.jpg"])%list /\
  resolved (destination flags
              {| Label := "Original"; Filename := "a/../cat.jpg";
                 Url := "http://farm1.staticflickr.com/x" |})
    = (resolved (targetDirectory flags) ++ ["cat.jpg"])%list.
Proof. repeat split; reflexivity. Qed.

(** A filename with dot-dot components lands outside the target
    directory. *)
Example destination_escapes :
  resolved (destination flags
              {| Label := "Original"; Filename := "../etc/cron.d/job";
                 Url := "http://farm1.staticflickr.com/x" |})
    = ["etc"; "cron.d"; "job"]
  /\ resolved (targetDirectory flags) = ["tmp"].
Proof. split; reflexivity. Qed.

(** ** Claims about the crawler *)

Section CrawlerFacts.

Context (E : env) (cfg : config) (searchClause : string).

Lemma send_ready_full queue :
  (capacity cfg <= length queue)%nat -> send_ready cfg queue = [].
Proof.
  intros Hfull. unfold send_ready.
  destruct (Nat.ltb_spec (length queue) (capacity cfg)); [lia|reflexivity].
Qed.

(** An item without the wanted size is skipped, whatever the channels. *)
Lemma crawler_step_unlabelled choice stop queue page photo rest w :
  Sizes photo !! sizeWanted cfg = None ->
  crawler_step E cfg searchClause choice stop queue (CPhotos page (photo :: rest)) w
    = (CPhotos page rest, queue, w).
Proof. intros H. cbn. rewrite H. reflexivity. Qed.

(** While [stop] is open, an item with the wanted size is offered once and
    the crawler moves on to the next item. *)
Lemma crawler_step_labelled choice queue page photo rest sized w :
  Sizes photo !! sizeWanted cfg = Some sized ->
  exists queue' w',
    crawler_step E cfg searchClause choice Open queue (CPhotos page (photo :: rest)) w
      = (CPhotos page rest, queue', w') /\
    offers (trace w') = (offers (trace w) ++ [sized])%list.
Proof.
  intros H. cbn. rewrite H.
  destruct (select choice (send_ready cfg queue)) as [c|] eqn:Hsel.
  - apply select_elem in Hsel. unfold send_ready in Hsel.
    destruct (length queue <? capacity cfg)%nat; [|inversion Hsel].
    apply list_elem_of_singleton in Hsel as ->.
    eexists _, _. split; [reflexivity|].
    cbn. rewrite !offers_app, app_nil_r. reflexivity.
  - eexists _, _. split; [reflexivity|]. cbn. rewrite offers_app. reflexivity.
Qed.

End CrawlerFacts.

(** C7. With the queue full and [stop] open, the select of the enqueue
    falls through to its default: the step ends with the crawler at the next
    item of the page, the queue as it was and nothing logged; the descriptor
    is gone. *)
Theorem C7_full_queue_drops E cfg clause choice queue page photo rest sized w :
  Sizes photo !! sizeWanted cfg = Some sized ->
  (capacity cfg <= length queue)%nat ->
  crawler_step E cfg clause choice Open queue (CPhotos page (photo :: rest)) w
    = (CPhotos page rest, queue, emit (EvOffer sized) w).
Proof.
  intros Hsized Hfull. cbn. rewrite Hsized, send_ready_full by assumption.
  reflexivity.
Qed.

Lemma C7_full_queue_drops_witness :
  Sizes (photo "o" "cat1") !! sizeWanted flags = Some (original "cat1") /\
  (capacity flags <= length (replicate 400 (original "dog")))%nat /\
  crawler_step healthy flags "cats" 0 Open (replicate 400 (original "dog"))
               (CPhotos 1 [photo "o" "cat1"; photo "o" "cat2"]) blank
    = (CPhotos 1 [photo "o" "cat2"], replicate 400 (original "dog"),
       emit (EvOffer (original "cat1")) blank).
Proof.
  split; [reflexivity|]. split; [vm_compute; lia|].
  apply (C7_full_queue_drops healthy flags "cats" 0%nat
           (replicate 400 (original "dog")) 1 (photo "o" "cat1")
           [photo "o" "cat2"] (original "cat1") blank).
  - reflexivity.
  - vm_compute. lia.
Defined.

(** C9 (as the code has it).  While [stop] is open the crawler walks a
    decoded page item by item, whatever happens to the queue meanwhile, and
    offers exactly the descriptors of the items whose size mapping has the
    wanted label, once each and in order.  An item without the label is
    skipped without an offer whatever the state of [stop]. *)
Theorem C9_offers_matching_items E cfg clause obs page photos w :
  Forall (fun o => o.1.2 = Open) obs ->
  length obs = length photos ->
  (crawler_run E cfg clause obs (CPhotos page photos) w).1 = CPhotos page [] /\
  offers (trace (crawler_run E cfg clause obs (CPhotos page photos) w).2)
    = (offers (trace w) ++
       omap (fun photo => Sizes photo !! sizeWanted cfg) photos)%list /\
  (forall choice stop queue photo rest,
     Sizes photo !! sizeWanted cfg = None ->
     crawler_step E cfg clause choice stop queue (CPhotos page (photo :: rest)) w
       = (CPhotos page rest, queue, w)).
Proof.
  intros Hopen Hlen.
  enough (Hrun :
    (crawler_run E cfg clause obs (CPhotos page photos) w).1 = CPhotos page [] /\
    offers (trace (crawler_run E cfg clause obs (CPhotos page photos) w).2)
      = (offers (trace w) ++
         omap (fun photo => Sizes photo !! sizeWanted cfg) photos)%list).
  { destruct Hrun as [Hpc Hoffers]. split; [exact Hpc|]. split; [exact Hoffers|].
    intros choice stop queue photo rest. apply crawler_step_unlabelled. }
  revert photos w Hlen.
  induction Hopen as [|[[choice stop] queue] obs Ho _ IH]; intros photos w Hlen.
  - destruct photos; [|discriminate]. cbn. rewrite app_nil_r. split; reflexivity.
  - destruct photos as [|photo photos]; [discriminate|].
    cbn in Ho. subst stop. injection Hlen as Hlen.
    cbn [crawler_run omap list_omap].
    destruct (Sizes photo !! sizeWanted cfg) as [sized|] eqn:Hsized.
    + destruct (crawler_step_labelled E cfg clause choice queue page photo photos sized w Hsized)
        as (queue' & w' & Hstep & Hoffers).
      rewrite Hstep. destruct (IH photos w' Hlen) as [Hpc Hall].
      split; [assumption|]. rewrite Hall, Hoffers, <- app_assoc. reflexivity.
    + rewrite crawler_step_unlabelled by assumption. apply IH, Hlen.
Qed.

Lemma C9_offers_matching_items_witness :
  Forall (fun o : nat * signal_chan * list FlickrResultPhotoSize => o.1.2 = Open)
         [(0%nat, Open, []); (0%nat, Open, []); (0%nat, Open, [])] /\
  length [(0%nat, Open, @nil FlickrResultPhotoSize); (0%nat, Open, []); (0%nat, Open, [])]
    = length [photo "o" "cat1"; photo "sq" "cat2"; photo "o" "cat3"] /\
  offers (trace (crawler_run healthy flags "cats"
                   [(0%nat, Open, []); (0%nat, Open, []); (0%nat, Open, [])]
                   (CPhotos 1 [photo "o" "cat1"; photo "sq" "cat2"; photo "o" "cat3"])
                   blank).2)
    = [original "cat1"; original "cat3"].
Proof.
  split; [repeat constructor|]. split; [reflexivity|].
  apply (C9_offers_matching_items healthy flags "cats"
           [(0%nat, Open, []); (0%nat, Open, []); (0%nat, Open, [])] 1
           [photo "o" "cat1"; photo "sq" "cat2"; photo "o" "cat3"] blank).
  - repeat constructor.
  - reflexivity.
Defined.

(** ** The whole process *)

Section ProcessFacts.

Context (E : env) (cfg : config) (searchClause : string).

Lemma run_cons a choice schedule s :
  run E cfg searchClause ((a, choice) :: schedule) s
    = run E cfg searchClause schedule (step E cfg searchClause a choice s).
Proof. reflexivity. Qed.

(** Once the process is gone nothing moves any more. *)
Lemma step_halted a choice s :
  state s <> Running -> step E cfg searchClause a choice s = s.
Proof. unfold step. destruct (state s); congruence. Qed.

Lemma run_halted schedule s :
  state s <> Running -> run E cfg searchClause schedule s = s.
Proof.
  induction schedule as [|[a choice] schedule IH]; intros H; [reflexivity|].
  rewrite run_cons, step_halted by assumption. apply IH, H.
Qed.

Lemma grabPictures_iter_quiet choice stop queue w :
  exists new,
    trace (grabPictures_iter E cfg choice stop queue w).2 = (trace w ++ new)%list /\
    Forall quiet new.
Proof.
  unfold grabPictures_iter.
  destruct (select choice (worker_ready stop queue)) as [[sized rest|]|].
  - destruct (fetch_picture_events E cfg sized w) as (new & Htrace & Hall).
    exists new. split; [assumption|].
    eapply Forall_impl; [exact Hall|]. apply worker_event_quiet.
  - exists [EvLog LogStoppingGrabber]. split; [reflexivity|]. repeat constructor.
  - exists []. rewrite app_nil_r. split; [reflexivity|constructor].
Qed.

(** After [fetchFlickrData] has returned no step of any goroutine fetches a
    page or offers a descriptor, and the process cannot end through
    [log.Fatalf] any more. *)
Lemma step_after_crawl a choice s :
  crawler_done s -> state s <> Exited 1 ->
  crawler_done (step E cfg searchClause a choice s) /\
  state (step E cfg searchClause a choice s) <> Exited 1 /\
  page_fetches (trace (outside (step E cfg searchClause a choice s)))
    = page_fetches (trace (outside s)) /\
  offers (trace (outside (step E cfg searchClause a choice s)))
    = offers (trace (outside s)).
Proof.
  intros Hdone Hstate. unfold step, crawler_done in *.
  destruct (state s) eqn:Hst; try (repeat split; solve [assumption | congruence]).
  destruct a.
  - unfold main_step. destruct (pc s) eqn:Hpc; [contradiction| | |].
    + destruct (finishing s).
      * cbn. rewrite Hst, page_fetches_app, offers_app, !app_nil_r. repeat split; congruence.
      * destruct (length (grab_pictures s) =? 0)%nat.
        -- destruct (close (stop s)); cbn;
             rewrite ?Hst, ?Hpc, ?page_fetches_app, ?offers_app, ?app_nil_r;
             repeat split; congruence.
        -- cbn. rewrite Hst, Hpc, page_fetches_app, offers_app, !app_nil_r.
           repeat split; congruence.
    + destruct (workers s); cbn;
        rewrite ?Hst, ?Hpc, ?page_fetches_app, ?offers_app, ?app_nil_r;
        repeat split; congruence.
    + rewrite Hpc, Hst. repeat split; congruence.
  - unfold watcher_step. destruct (watcher s); [|rewrite Hst; repeat split; congruence].
    destruct (signals s).
    + destruct (close _); cbn;
        rewrite ?Hst, ?page_fetches_app, ?offers_app, ?app_nil_r;
        repeat split; try congruence; destruct (pc s); trivial.
    + cbn. rewrite Hst, page_fetches_app, offers_app, !app_nil_r.
      repeat split; try congruence.
  - unfold worker_step. destruct (workers s); [rewrite Hst; repeat split; congruence|].
    destruct (grabPictures_iter_quiet choice (stop s) (grab_pictures s) (outside s))
      as (new & Htrace & Hquiet).
    destruct (grabPictures_iter E cfg choice (stop s) (grab_pictures s) (outside s))
      as [[again q'] w'].
    cbn in *. rewrite Hst, Htrace, page_fetches_app, offers_app.
    rewrite (quiet_page_fetches new), (quiet_offers new), !app_nil_r by assumption.
    repeat split; congruence.
  - unfold interrupt. destruct (notified s); cbn; rewrite ?Hst; repeat split; congruence.
Qed.

Lemma run_after_crawl schedule s :
  crawler_done s -> state s <> Exited 1 ->
  crawler_done (run E cfg searchClause schedule s) /\
  state (run E cfg searchClause schedule s) <> Exited 1 /\
  page_fetches (trace (outside (run E cfg searchClause schedule s)))
    = page_fetches (trace (outside s)) /\
  offers (trace (outside (run E cfg searchClause schedule s)))
    = offers (trace (outside s)).
Proof.
  revert s. induction schedule as [|[a choice] schedule IH]; intros s Hdone Hstate.
  - repeat split; assumption.
  - rewrite run_cons.
    destruct (step_after_crawl a choice s Hdone Hstate) as (Hd & Hs & Hp & Ho).
    destruct (IH _ Hd Hs) as (Hd' & Hs' & Hp' & Ho').
    repeat split; congruence.
Qed.

End ProcessFacts.

(** C6. When the page's response does not declare [application/json], or
    declares it and its body does not decode, the crawler's step logs, ends
    [fetchFlickrData] and takes [main] to its drain loop: the process keeps
    running, the queue is as it was, and under no schedule is a page fetched
    or a descriptor offered afterwards, nor does the process end through the
    fatal path. *)
Theorem C6_end_of_results E cfg clause choice s page res :
  state s = Running ->
  pc s = MCrawl (CPage page) ->
  stop s = Open ->
  page <= maxPages cfg ->
  http_NewRequest E (search_url E clause page) = true ->
  client_Do E (clock (outside s)) (search_url E clause page) = Some res ->
  ContentType res <> "application/json" \/
    (BodyErr res = false /\ json_Unmarshal E (Body res) = None) ->
  pc (step E cfg clause Main choice s) = MDrain /\
  state (step E cfg clause Main choice s) = Running /\
  grab_pictures (step E cfg clause Main choice s) = grab_pictures s /\
  (exists logs,
     trace (outside (step E cfg clause Main choice s))
       = (trace (outside s) ++ EvDo (search_url E clause page) :: map EvLog logs)%list /\
     (logs = [LogNotJson] \/ logs = [LogCantParse; LogParseError])) /\
  forall schedule,
    page_fetches (trace (outside (run E cfg clause schedule (step E cfg clause Main choice s))))
      = (page_fetches (trace (outside s)) ++ [search_url E clause page])%list /\
    offers (trace (outside (run E cfg clause schedule (step E cfg clause Main choice s))))
      = offers (trace (outside s)) /\
    state (run E cfg clause schedule (step E cfg clause Main choice s)) <> Exited 1.
Proof.
  intros Hst Hpc Hstop Hpage Hreq Hdo Hend.
  assert (Hstep : exists logs,
    (logs = [LogNotJson] \/ logs = [LogCantParse; LogParseError]) /\
    step E cfg clause Main choice s =
      set_pc MDrain
        (set_outside
           {| fs := fs (outside s); clock := S (clock (outside s));
              trace := (trace (outside s) ++
                        EvDo (search_url E clause page) :: map EvLog logs)%list |}
           (set_grab_pictures (grab_pictures s) s))).
  { unfold step, main_step. rewrite Hst, Hpc. unfold crawler_step.
    rewrite (proj2 (Z.leb_le _ _) Hpage), Hstop. cbn [stop_ready select].
    unfold fetch_page. rewrite Hreq, Hdo.
    destruct (String.eqb_spec (ContentType res) "application/json") as [Hjson|Hother].
    - destruct Hend as [Hne|[Hbody Hdecode]]; [contradiction|].
      rewrite Hbody, Hdecode. exists [LogCantParse; LogParseError].
      split; [right; reflexivity|].
      cbn. unfold emit, tick. cbn [fs clock trace]. rewrite <- !app_assoc. reflexivity.
    - exists [LogNotJson]. split; [left; reflexivity|].
      cbn. unfold emit, tick. cbn [fs clock trace]. rewrite <- !app_assoc. reflexivity. }
  destruct Hstep as (logs & Hlogs & ->). cbn [pc state grab_pictures outside set_pc set_outside set_grab_pictures trace].
  split; [reflexivity|]. split; [assumption|]. split; [reflexivity|].
  split; [exists logs; split; [reflexivity|assumption]|].
  intros schedule.
  match goal with
  | |- context [run E cfg clause schedule ?s1] =>
    destruct (run_after_crawl E cfg clause schedule s1) as (_ & Hs & Hp & Ho);
      [exact I | cbn; congruence |]
  end.
  rewrite Hp, Ho. cbn [outside set_pc set_outside trace].
  change (EvDo (search_url E clause page) :: map EvLog logs)
    with ([EvDo (search_url E clause page)] ++ map EvLog logs)%list.
  rewrite !page_fetches_app, !offers_app.
  assert (Hq : Forall quiet (map EvLog logs)).
  { destruct Hlogs as [-> | ->]; repeat constructor. }
  rewrite (quiet_page_fetches _ Hq), (quiet_offers _ Hq), !app_nil_r.
  split; [reflexivity|]. split; [reflexivity|assumption].
Qed.

Lemma C6_end_of_results_witness :
  state (init flags "cats" ∅) = Running /\
  pc (init flags "cats" ∅) = MCrawl (CPage 1) /\
  stop (init flags "cats" ∅) = Open /\
  1 <= maxPages flags /\
  http_NewRequest search_html (search_url search_html "cats" 1) = true /\
  client_Do search_html 0 (search_url search_html "cats" 1) = Some html_page /\
  ContentType html_page <> "application/json" /\
  pc (step search_html flags "cats" Main 0 (init flags "cats" ∅)) = MDrain /\
  state (step search_html flags "cats" Main 0 (init flags "cats" ∅)) = Running.
Proof.
  split; [reflexivity|]. split; [reflexivity|]. split; [reflexivity|].
  split; [vm_compute; discriminate|]. split; [reflexivity|]. split; [reflexivity|].
  split; [discriminate|].
  destruct (C6_end_of_results search_html flags "cats" 0%nat (init flags "cats" ∅) 1 html_page)
    as (Hpc & Hstate & _); try reflexivity.
  - vm_compute. discriminate.
  - left. discriminate.
  - split; assumption.
Defined.

(** C5 (as the code has it).  A request that cannot be built, a search
    endpoint that cannot be reached and a JSON response whose body cannot be
    read each end the process on the spot through [log.Fatalf], that is with
    exit status 1: the fatal line is the last thing logged, [stop] is never
    closed, no worker has been waited for, and nothing runs afterwards. *)
Theorem C5_fatal_exits_with_1 E cfg clause choice s page :
  state s = Running ->
  pc s = MCrawl (CPage page) ->
  stop s = Open ->
  page <= maxPages cfg ->
  http_NewRequest E (search_url E clause page) = false \/
  (http_NewRequest E (search_url E clause page) = true /\
   client_Do E (clock (outside s)) (search_url E clause page) = None) \/
  (http_NewRequest E (search_url E clause page) = true /\
   exists res,
     client_Do E (clock (outside s)) (search_url E clause page) = Some res /\
     ContentType res = "application/json" /\ BodyErr res = true) ->
  state (step E cfg clause Main choice s) = Exited 1 /\
  stop (step E cfg clause Main choice s) = Open /\
  workers (step E cfg clause Main choice s) = workers s /\
  grab_pictures (step E cfg clause Main choice s) = grab_pictures s /\
  (exists fatal,
     last (trace (outside (step E cfg clause Main choice s))) = Some (EvLog fatal) /\
     fatal ∈ [FatalCreatingRequest; FatalGettingResponse; FatalReadingBody]) /\
  forall schedule,
    run E cfg clause schedule (step E cfg clause Main choice s)
      = step E cfg clause Main choice s.
Proof.
  intros Hst Hpc Hstop Hpage Hfail.
  assert (Hstep : exists fatal w',
    fatal ∈ [FatalCreatingRequest; FatalGettingResponse; FatalReadingBody] /\
    step E cfg clause Main choice s =
      set_state (Exited 1)
        (set_outside (emit (EvLog fatal) w') (set_grab_pictures (grab_pictures s) s))).
  { unfold step, main_step. rewrite Hst, Hpc. unfold crawler_step.
    rewrite (proj2 (Z.leb_le _ _) Hpage), Hstop. cbn [stop_ready select].
    unfold fetch_page.
    destruct Hfail as [Hreq|[[Hreq Hdo]|(Hreq & res & Hdo & Hjson & Hbody)]].
    - rewrite Hreq. eexists _, _. split; [|reflexivity]. set_solver.
    - rewrite Hreq, Hdo. eexists _, _. split; [|reflexivity]. set_solver.
    - rewrite Hreq, Hdo, Hjson, Hbody. eexists _, _. split; [|reflexivity]. set_solver. }
  destruct Hstep as (fatal & w' & Hfatal & ->).
  split; [reflexivity|]. split; [assumption|]. split; [reflexivity|].
  split; [reflexivity|]. split.
  - exists fatal. split; [|assumption]. cbn. apply last_snoc.
  - intros schedule. apply run_halted. cbn. discriminate.
Qed.

Lemma C5_fatal_exits_with_1_witness :
  state (init flags "cats" ∅) = Running /\
  pc (init flags "cats" ∅) = MCrawl (CPage 1) /\
  stop (init flags "cats" ∅) = Open /\
  1 <= maxPages flags /\
  http_NewRequest search_down (search_url search_down "cats" 1) = true /\
  client_Do search_down 0 (search_url search_down "cats" 1) = None /\
  state (step search_down flags "cats" Main 0 (init flags "cats" ∅)) = Exited 1.
Proof.
  split; [reflexivity|]. split; [reflexivity|]. split; [reflexivity|].
  split; [vm_compute; discriminate|]. split; [reflexivity|]. split; [reflexivity|].
  apply (C5_fatal_exits_with_1 search_down flags "cats" 0%nat (init flags "cats" ∅) 1);
    try reflexivity.
  - vm_compute. discriminate.
  - right. left. split; reflexivity.
Defined.

(** C5, the claim as written, fails: with the search endpoint unreachable
    the first step of the crawler ends the process with status 1, not 0. *)
Lemma C5_counterexample :
  client_Do search_down 0 (search_url search_down "cats" 1) = None /\
  state (run search_down flags "cats" [(Main, 0%nat)] (init flags "cats" ∅)) = Exited 1 /\
  state (run search_down flags "cats" [(Main, 0%nat)] (init flags "cats" ∅)) <> Exited 0.
Proof. split; [reflexivity|]. split; [reflexivity|]. vm_compute. discriminate. Qed.

(** C2 (as the code has it).  With [stop] closed: at the head of the page
    loop the crawler returns without fetching; at an enqueue it never drops,
    it returns or, if the queue has room, may still enqueue the descriptor;
    a worker returns or, if the queue holds an item, may still dequeue it and
    then handles it to the end.  So the crawler facing a full queue and the
    worker facing an empty one stop for certain. *)
Theorem C2_after_cancellation E cfg clause choice queue w :
  (forall page,
     exists w',
       crawler_step E cfg clause choice Closed queue (CPage page) w
         = (CReturned, queue, w') /\
       page_fetches (trace w') = page_fetches (trace w)) /\
  (forall page photo rest sized,
     Sizes photo !! sizeWanted cfg = Some sized ->
     crawler_step E cfg clause choice Closed queue (CPhotos page (photo :: rest)) w
       = (CReturned, queue, emit (EvLog LogStoppingSpider) (emit (EvOffer sized) w)) \/
     ((length queue < capacity cfg)%nat /\
      crawler_step E cfg clause choice Closed queue (CPhotos page (photo :: rest)) w
        = (CPhotos page rest, (queue ++ [sized])%list,
           emit (EvLog (LogPushed (Filename sized))) (emit (EvOffer sized) w)))) /\
  (grabPictures_iter E cfg choice Closed queue w
     = (false, queue, emit (EvLog LogStoppingGrabber) w) \/
   exists sized rest,
     queue = sized :: rest /\
     grabPictures_iter E cfg choice Closed queue w
       = (true, rest, fetch_picture E cfg sized w)).
Proof.
  split; [|split].
  - intros page. unfold crawler_step. cbn [stop_ready]. rewrite select_singleton.
    destruct (page <=? maxPages cfg).
    + eexists. split; [reflexivity|]. cbn. rewrite page_fetches_app. cbn.
      apply app_nil_r.
    + eexists. split; reflexivity.
  - intros page photo rest sized Hsized. unfold crawler_step. rewrite Hsized.
    cbn [stop_ready]. unfold send_ready.
    destruct (Nat.ltb_spec (length queue) (capacity cfg)) as [Hroom|Hfull].
    + destruct (select_ready choice ([OStop] ++ [OSend])) as [c Hsel]; [discriminate|].
      rewrite Hsel. apply select_elem in Hsel.
      destruct c; [left; reflexivity|right; split; [assumption|reflexivity]].
    + cbn [app]. rewrite select_singleton. left. reflexivity.
  - unfold grabPictures_iter, worker_ready. destruct queue as [|sized rest].
    + cbn [app]. rewrite select_singleton. left. reflexivity.
    + destruct (select_ready choice ([WRecv sized rest] ++ [WStop])) as [c Hsel];
        [discriminate|].
      rewrite Hsel. apply select_elem in Hsel.
      destruct c as [sized' rest'|]; [|left; reflexivity].
      right. exists sized, rest. split; [reflexivity|].
      apply list_elem_of_In in Hsel. destruct Hsel as [[= -> ->]|[[=]|[]]].
      reflexivity.
Qed.

(** C2, the claim as written, fails: in [interrupted_mid_page] the token is
    set, one picture is queued and the crawler stands before the second one.
    A select that sees both its cases ready may take either: the crawler
    enqueues the second picture, and a worker dequeues and downloads the
    first. *)
Lemma C2_counterexample :
  stop interrupted_mid_page = Closed /\
  grab_pictures interrupted_mid_page = [original "cat1"] /\
  grab_pictures (step healthy flags "cats" Main 1 interrupted_mid_page)
    = [original "cat1"; original "cat2"] /\
  grab_pictures (step healthy flags "cats" Worker 0 interrupted_mid_page) = [] /\
  downloads (trace (outside (step healthy flags "cats" Worker 0 interrupted_mid_page)))
    = [Url (original "cat1")].
Proof. repeat split; reflexivity. Qed.

(** C9, the claim as written, fails: both pictures of the decoded page have
    the wanted size, but [stop] is closed before the crawler looks at them;
    it returns at the first offer, and under no schedule is the second
    picture ever offered. *)
Lemma C9_counterexample :
  pc interrupted_before_offers
    = MCrawl (CPhotos 1 [photo "o" "cat1"; photo "o" "cat2"]) /\
  Sizes (photo "o" "cat2") !! sizeWanted flags = Some (original "cat2") /\
  pc (step healthy flags "cats" Main 0 interrupted_before_offers) = MDrain /\
  forall schedule,
    offers (trace (outside (run healthy flags "cats" schedule
                             (step healthy flags "cats" Main 0 interrupted_before_offers))))
      = [original "cat1"].
Proof.
  split; [reflexivity|]. split; [reflexivity|]. split; [reflexivity|].
  intros schedule.
  destruct (run_after_crawl healthy flags "cats" schedule
              (step healthy flags "cats" Main 0 interrupted_before_offers))
    as (_ & _ & _ & ->); [exact I|vm_compute; discriminate|reflexivity].
Qed.

(** A second [close(stop)] panics, whoever comes second. *)
Lemma watcher_after_drain_panics E cfg clause choice s :
  state s = Running -> watcher s = true -> signals s = true -> stop s = Closed ->
  state (step E cfg clause Watcher choice s) = Panicked.
Proof.
  intros Hst Hw Hsig Hstop. unfold step, watcher_step.
  rewrite Hst, Hw, Hsig. cbn. rewrite Hstop. reflexivity.
Qed.

(** The guard of the drain loop: once the signal goroutine has set
    [finishing], [main] does not close [stop] again. *)
Lemma drain_after_signal_is_safe E cfg clause choice s :
  state s = Running -> pc s = MDrain -> finishing s = true ->
  state (step E cfg clause Main choice s) = Running /\
  pc (step E cfg clause Main choice s) = MWait /\
  stop (step E cfg clause Main choice s) = stop s.
Proof.
  intros Hst Hpc Hfin. unfold step, main_step. rewrite Hst, Hpc, Hfin.
  repeat split; assumption.
Qed.

(** C1 (what the code does).  The two triggers are not idempotent: after an
    undisturbed run in which [main] itself has closed [stop] and waits for
    the workers, an interrupt makes the signal goroutine close [stop] a
    second time, and the process dies of the runtime panic. *)
Theorem C1_second_trigger_panics :
  state drained = Running /\
  stop drained = Closed /\
  pc drained = MWait /\
  finishing drained = false /\
  state (run healthy flags "cats" [(Interrupt, 0%nat); (Watcher, 0%nat)] drained)
    = Panicked.
Proof. repeat split; reflexivity. Qed.

(** * Further properties of the pipeline *)

Lemma downloads_app t1 t2 : downloads (t1 ++ t2) = (downloads t1 ++ downloads t2)%list.
Proof. apply omap_app. Qed.

Lemma sleeps_app t1 t2 : sleeps (t1 ++ t2) = (sleeps t1 ++ sleeps t2)%list.
Proof. apply omap_app. Qed.

Lemma slept_app t1 t2 : slept (t1 ++ t2) = slept t1 + slept t2.
Proof.
  unfold slept. rewrite sleeps_app. induction (sleeps t1) as [|d l IH]; cbn; lia.
Qed.

Lemma pushed_app t1 t2 : pushed (t1 ++ t2) = (pushed t1 ++ pushed t2)%list.
Proof. apply omap_app. Qed.

Section RetryBudget.

Context (E : env) (cfg : config).

(** Entered with [retries], the loop issues at most [5 - retries] GETs and
    sleeps at most the delays still ahead, [2*(retries+1) + ... + 10]. *)
Lemma fetch_loop_budget fuel sized retries w r w' :
  0 <= retries <= 5 ->
  fetch_loop E cfg fuel sized retries w = Some (r, w') ->
  exists new,
    trace w' = (trace w ++ new)%list /\
    Z.of_nat (length (downloads new)) <= 5 - retries /\
    (retries < 5 -> (1 <= length (downloads new))%nat) /\
    0 <= slept new <= 30 - retries * (retries + 1) /\
    Forall (fun d => 2 <= d <= 10) (sleeps new).
Proof.
  revert retries w. induction fuel as [|fuel IH]; intros retries w Hr; [discriminate|].
  rewrite fetch_loop_unfold. destruct (Z.ltb_spec retries 5) as [Hlt|Hge].
  - cbv zeta. destruct (http_Get E (clock w) (Url sized)) as [res|].
    + destruct (os_Create E _ _).
      * intros [= <- <-]. eexists. split.
        { cbn. rewrite <- !app_assoc. reflexivity. }
        cbn. repeat split; try lia; try nia. constructor.
      * intros Hloop. destruct (IH (retries + 1) _ ltac:(lia) Hloop)
          as (new & Htrace & Hgets & _ & Hslept & Hall).
        eexists. split.
        { rewrite Htrace. cbn. rewrite <- !app_assoc. reflexivity. }
        rewrite !downloads_app, !slept_app, !sleeps_app. cbn.
        repeat split; try lia; try nia. assumption.
    + intros Hloop. destruct (IH (retries + 1) _ ltac:(lia) Hloop)
        as (new & Htrace & Hgets & _ & Hslept & Hall).
      eexists. split.
      { rewrite Htrace. cbn. rewrite <- !app_assoc. reflexivity. }
      rewrite !downloads_app, !slept_app, !sleeps_app. cbn.
      repeat split; try lia; try nia. constructor; [lia|assumption].
  - intros [= <- <-]. exists []. rewrite app_nil_r. cbn.
    repeat split; try lia; try nia. constructor.
Qed.

End RetryBudget.

(** X1. Handling one dequeued item costs at least one and at most five
    GETs, whatever the network and the disk do; every backoff lies between 2
    and 10 time units and all of them together never exceed 30. *)
Theorem X1_retry_budget E cfg sized w :
  exists new,
    trace (fetch_picture E cfg sized w) = (trace w ++ new)%list /\
    (1 <= length (downloads new) <= 5)%nat /\
    Forall (fun d => 2 <= d <= 10) (sleeps new) /\
    0 <= slept new <= 30.
Proof.
  unfold fetch_picture.
  destruct (fetch_loop_total E cfg sized 6 0 w) as [[r w'] Hloop]; [cbn; lia|].
  rewrite Hloop.
  destruct (fetch_loop_budget E cfg 6 sized 0 w r w' ltac:(lia) Hloop)
    as (new & Htrace & Hgets & Hone & Hslept & Hall).
  specialize (Hone ltac:(lia)).
  destruct r as [|final].
  - exists new. repeat split; try assumption; lia.
  - exists (new ++ [EvLog (LogHardError final)])%list. split.
    { cbn. rewrite Htrace, <- app_assoc. reflexivity. }
    rewrite downloads_app, sleeps_app, slept_app. cbn. rewrite !app_nil_r.
    repeat split; try assumption; lia.
Qed.


Section Steps.

Context (E : env) (cfg : config) (searchClause : string).

(** The three ways an iteration of the worker can go: nothing to do, stop
    observed, item received. *)
Lemma grabPictures_iter_cases choice stop queue w :
  (stop = Open /\ queue = [] /\
   grabPictures_iter E cfg choice stop queue w = (true, queue, w)) \/
  (stop = Closed /\
   grabPictures_iter E cfg choice stop queue w
     = (false, queue, emit (EvLog LogStoppingGrabber) w)) \/
  (exists sized rest,
     queue = sized :: rest /\
     grabPictures_iter E cfg choice stop queue w
       = (true, rest, fetch_picture E cfg sized w)).
Proof.
  unfold grabPictures_iter.
  destruct (select choice (worker_ready stop queue)) as [c|] eqn:Hsel.
  - apply select_elem in Hsel. unfold worker_ready in Hsel.
    apply elem_of_app in Hsel as [Hin|Hin].
    + destruct queue as [|sized rest]; [inversion Hin|].
      apply list_elem_of_singleton in Hin as ->.
      right. right. exists sized, rest. split; reflexivity.
    + destruct stop; [inversion Hin|].
      apply list_elem_of_singleton in Hin as ->.
      right. left. split; reflexivity.
  - left. destruct queue as [|sized rest]; destruct stop;
      try (split; [reflexivity|split; reflexivity]);
      exfalso;
      match type of Hsel with
      | select _ ?ready = None =>
        destruct (select_ready choice ready) as [c Hc]; [discriminate|congruence]
      end.
Qed.

(** What a step of the crawler does to the queue and to the trace: it
    downloads, creates and sleeps nothing, and it either leaves the queue
    alone or appends one descriptor to a queue that had room. *)
Lemma crawler_step_effect choice stop queue c w c' queue' w' :
  crawler_step E cfg searchClause choice stop queue c w = (c', queue', w') ->
  exists new,
    trace w' = (trace w ++ new)%list /\
    fs w' = fs w /\
    downloads new = [] /\ created new = [] /\
    ((queue' = queue /\ pushed new = []) \/
     (exists sized,
        queue' = (queue ++ [sized])%list /\
        (length queue < capacity cfg)%nat /\
        pushed new = [Filename sized] /\
        offers new = [sized])).
Proof.
  intros Hstep.
  assert (Hquiet : forall new,
    trace w' = (trace w ++ new)%list -> fs w' = fs w -> queue' = queue ->
    downloads new = [] -> created new = [] -> pushed new = [] ->
    exists new,
      trace w' = (trace w ++ new)%list /\ fs w' = fs w /\
      downloads new = [] /\ created new = [] /\
      ((queue' = queue /\ pushed new = []) \/
       (exists sized,
          queue' = (queue ++ [sized])%list /\
          (length queue < capacity cfg)%nat /\
          pushed new = [Filename sized] /\
          offers new = [sized]))).
  { intros new ? ? ? ? ? ?. exists new. repeat split; try assumption.
    left. split; assumption. }
  destruct c as [page|page [|photo rest]| |]; cbn [crawler_step] in Hstep.
  - destruct (page <=? maxPages cfg).
    + destruct (select choice (stop_ready stop)).
      * injection Hstep as <- <- <-.
        apply (Hquiet [EvLog LogStoppingSpider]); reflexivity.
      * unfold fetch_page in Hstep.
        destruct (http_NewRequest E _).
        -- destruct (client_Do E _ _) as [res|].
           ++ destruct (negb _).
              ** injection Hstep as <- <- <-.
                 apply (Hquiet [EvDo (search_url E searchClause page); EvLog LogNotJson]);
                   try reflexivity. cbn. rewrite <- app_assoc. reflexivity.
              ** destruct (BodyErr res).
                 { injection Hstep as <- <- <-.
                   apply (Hquiet [EvDo (search_url E searchClause page);
                                  EvLog FatalReadingBody]);
                     try reflexivity. cbn. rewrite <- app_assoc. reflexivity. }
                 destruct (json_Unmarshal E (Body res)).
                 { injection Hstep as <- <- <-.
                   apply (Hquiet [EvDo (search_url E searchClause page)]); reflexivity. }
                 injection Hstep as <- <- <-.
                 apply (Hquiet [EvDo (search_url E searchClause page);
                                EvLog LogCantParse; EvLog LogParseError]);
                   try reflexivity. cbn. rewrite <- !app_assoc. reflexivity.
           ++ injection Hstep as <- <- <-.
              apply (Hquiet [EvDo (search_url E searchClause page);
                             EvLog FatalGettingResponse]);
                try reflexivity. cbn. rewrite <- app_assoc. reflexivity.
        -- injection Hstep as <- <- <-.
           apply (Hquiet [EvLog FatalCreatingRequest]); reflexivity.
    + injection Hstep as <- <- <-. apply (Hquiet []); try reflexivity.
      symmetry. apply app_nil_r.
  - injection Hstep as <- <- <-. apply (Hquiet []); try reflexivity.
    symmetry. apply app_nil_r.
  - destruct (Sizes photo !! sizeWanted cfg) as [sized|].
    + destruct (select choice (stop_ready stop ++ send_ready cfg queue))
        as [[]|] eqn:Hsel; injection Hstep as <- <- <-.
      * apply (Hquiet [EvOffer sized; EvLog LogStoppingSpider]); try reflexivity.
        cbn. rewrite <- app_assoc. reflexivity.
      * exists [EvOffer sized; EvLog (LogPushed (Filename sized))].
        split; [cbn; rewrite <- app_assoc; reflexivity|].
        repeat split. right. exists sized. repeat split.
        apply select_elem in Hsel. apply elem_of_app in Hsel as [Hin|Hin].
        -- unfold stop_ready in Hin. destruct stop; inversion Hin; subst.
           match goal with H : _ ∈ [] |- _ => inversion H end.
        -- unfold send_ready in Hin.
           destruct (Nat.ltb_spec (length queue) (capacity cfg)); [assumption|inversion Hin].
      * apply (Hquiet [EvOffer sized]); reflexivity.
    + injection Hstep as <- <- <-. apply (Hquiet []); try reflexivity.
      symmetry. apply app_nil_r.
  - injection Hstep as <- <- <-. apply (Hquiet []); try reflexivity.
    symmetry. apply app_nil_r.
  - injection Hstep as <- <- <-. apply (Hquiet []); try reflexivity.
    symmetry. apply app_nil_r.
Qed.

(** No step lets the queue grow beyond its capacity. *)
Lemma step_bounded a choice s :
  (length (grab_pictures s) <= capacity cfg)%nat ->
  (length (grab_pictures (step E cfg searchClause a choice s)) <= capacity cfg)%nat.
Proof.
  intros Hb. unfold step. destruct (state s); try assumption. destruct a.
  - unfold main_step. destruct (pc s) as [c| | |].
    + destruct (crawler_step E cfg searchClause choice (stop s) (grab_pictures s) c (outside s))
        as [[c' q'] w'] eqn:Hstep.
      apply crawler_step_effect in Hstep
        as (new & _ & _ & _ & _ & [[-> _]|(sized & -> & Hroom & _)]).
      * destruct c'; assumption.
      * destruct c'; cbn; rewrite length_app; cbn; lia.
    + destruct (finishing s); [assumption|].
      destruct (length (grab_pictures s) =? 0)%nat; [|assumption].
      destruct (close (stop s)); assumption.
    + destruct (workers s); assumption.
    + assumption.
  - unfold watcher_step. destruct (watcher s); [|assumption].
    destruct (signals s); [|assumption]. destruct (close _); assumption.
  - unfold worker_step. destruct (workers s); [assumption|].
    destruct (grabPictures_iter_cases choice (stop s) (grab_pictures s) (outside s))
      as [(_ & _ & ->)|[(_ & ->)|(sized & rest & Hq & ->)]]; cbn; try assumption.
    rewrite Hq in Hb. cbn in Hb. lia.
  - unfold interrupt. destruct (notified s); assumption.
Qed.

End Steps.

(** X3. The queue is bounded: in every run of the program, under every
    schedule, the number of buffered descriptors never exceeds the capacity
    [100*concurrency] of the channel. *)
Theorem X3_queue_bounded E cfg clause files schedule :
  (length (grab_pictures (run E cfg clause schedule (init cfg clause files)))
     <= capacity cfg)%nat.
Proof.
  assert (Hrun : forall s, (length (grab_pictures s) <= capacity cfg)%nat ->
    (length (grab_pictures (run E cfg clause schedule s)) <= capacity cfg)%nat).
  { induction schedule as [|[a choice] schedule IH]; intros s Hb; [assumption|].
    rewrite run_cons. apply IH, step_bounded, Hb. }
  apply Hrun. cbn. lia.
Qed.

Section Invariants.

Context (E : env) (cfg : config) (searchClause : string).

(** A property kept by every step is kept by every run. *)
Lemma run_invariant (P : sys -> Prop) :
  (forall a choice s, P s -> P (step E cfg searchClause a choice s)) ->
  forall schedule s, P s -> P (run E cfg searchClause schedule s).
Proof.
  intros Hstep schedule. induction schedule as [|[a choice] schedule IH]; intros s Hs.
  - exact Hs.
  - rewrite run_cons. apply IH, Hstep, Hs.
Qed.


Lemma worker_step_frame choice s :
  stop (worker_step E cfg choice s) = stop s /\
  finishing (worker_step E cfg choice s) = finishing s /\
  signals (worker_step E cfg choice s) = signals s /\
  notified (worker_step E cfg choice s) = notified s /\
  watcher (worker_step E cfg choice s) = watcher s /\
  pc (worker_step E cfg choice s) = pc s /\
  state (worker_step E cfg choice s) = state s /\
  (workers (worker_step E cfg choice s) <= workers s)%nat.
Proof.
  unfold worker_step. destruct (workers s) as [|n] eqn:Hw.
  - rewrite Hw. repeat split; lia.
  - destruct (grabPictures_iter E cfg choice (stop s) (grab_pictures s) (outside s))
      as [[again q'] w'].
    cbn. repeat split. destruct again; lia.
Qed.


End Invariants.



Section Shutdown.

Context (E : env) (cfg : config) (searchClause : string).

Lemma main_step_crawl choice s c :
  pc s = MCrawl c ->
  exists c' q' w',
    crawler_step E cfg searchClause choice (stop s) (grab_pictures s) c (outside s)
      = (c', q', w') /\
    main_step E cfg searchClause choice s =
      match c' with
      | CFatal => set_state (Exited 1) (set_outside w' (set_grab_pictures q' s))
      | CReturned => set_pc MDrain (set_outside w' (set_grab_pictures q' s))
      | _ => set_pc (MCrawl c') (set_outside w' (set_grab_pictures q' s))
      end.
Proof.
  intros Hpc. unfold main_step. rewrite Hpc.
  destruct (crawler_step E cfg searchClause choice (stop s) (grab_pictures s) c (outside s))
    as [[c' q'] w'].
  exists c', q', w'. split; reflexivity.
Qed.

(** The crawler ends through [log.Fatalf] only from the head of the page
    loop, with [stop] open, and the fatal line is the last thing it wrote. *)
Lemma crawler_step_fatal choice stop queue c w q' w' :
  crawler_step E cfg searchClause choice stop queue c w = (CFatal, q', w') ->
  c <> CFatal ->
  exists page fatal,
    c = CPage page /\ stop = Open /\ fatal_line fatal /\
    last (trace w') = Some (EvLog fatal).
Proof.
  intros Hstep Hc. destruct c as [page|page [|photo rest]| |]; cbn [crawler_step] in Hstep.
  - destruct (page <=? maxPages cfg); [|discriminate].
    destruct stop; cbn [stop_ready] in Hstep;
      [cbn [select] in Hstep|rewrite select_singleton in Hstep; discriminate].
    unfold fetch_page in Hstep.
    destruct (http_NewRequest E _).
    + destruct (client_Do E _ _) as [res|].
      * destruct (negb _); [discriminate|].
        destruct (BodyErr res).
        -- injection Hstep as <- <-. exists page, FatalReadingBody.
           repeat split. apply last_snoc.
        -- destruct (json_Unmarshal E (Body res)); discriminate.
      * injection Hstep as <- <-. exists page, FatalGettingResponse.
        repeat split. apply last_snoc.
    + injection Hstep as <- <-. exists page, FatalCreatingRequest.
      repeat split. apply last_snoc.
  - discriminate.
  - destruct (Sizes photo !! sizeWanted cfg).
    + destruct (select choice _) as [[]|]; discriminate.
    + discriminate.
  - discriminate.
  - congruence.
Qed.

(** Without a pending signal the goroutines on their own keep the process
    alive or end it in order. *)
Lemma step_undisturbed a choice s :
  a <> Interrupt ->
  signals s = false -> finishing s = false ->
  state s <> Panicked -> state s <> Killed ->
  (state s = Running -> pc s <> MWait -> pc s <> MDone -> stop s = Open) ->
  signals (step E cfg searchClause a choice s) = false /\
  finishing (step E cfg searchClause a choice s) = false /\
  state (step E cfg searchClause a choice s) <> Panicked /\
  state (step E cfg searchClause a choice s) <> Killed /\
  (state (step E cfg searchClause a choice s) = Running ->
   pc (step E cfg searchClause a choice s) <> MWait ->
   pc (step E cfg searchClause a choice s) <> MDone ->
   stop (step E cfg searchClause a choice s) = Open).
Proof.
  intros Ha Hsig Hfin Hnp Hnk Hopen. unfold step.
  destruct (state s) eqn:Hst; try (repeat split; solve [assumption | congruence]).
  specialize (Hopen eq_refl). destruct a; [| | |congruence].
  - destruct (pc s) as [c| | |] eqn:Hpc.
    + destruct (main_step_crawl choice s c Hpc) as (c' & q' & w' & _ & ->).
      specialize (Hopen ltac:(discriminate) ltac:(discriminate)).
      destruct c'; cbn; rewrite ?Hst; repeat split;
        solve [assumption | discriminate | congruence].
    + unfold main_step. rewrite Hpc, Hfin.
      specialize (Hopen ltac:(discriminate) ltac:(discriminate)).
      destruct (length (grab_pictures s) =? 0)%nat.
      * rewrite Hopen. cbn. rewrite Hst. repeat split;
          solve [assumption | discriminate | congruence].
      * cbn. rewrite Hst, Hpc. repeat split;
          solve [assumption | discriminate | congruence].
    + unfold main_step. rewrite Hpc. destruct (workers s); cbn; rewrite ?Hst, ?Hpc;
        repeat split; solve [assumption | discriminate | congruence].
    + unfold main_step. rewrite Hpc, Hst. repeat split;
        solve [assumption | discriminate | congruence].
  - unfold watcher_step. rewrite Hsig. destruct (watcher s); cbn; rewrite ?Hst;
      repeat split; solve [assumption | discriminate | congruence | tauto].
  - destruct (worker_step_frame E cfg choice s) as (-> & -> & -> & _ & _ & -> & -> & _).
    rewrite Hst. repeat split; solve [assumption | discriminate | congruence | tauto].
Qed.

End Shutdown.

(** X5. As long as no interrupt is delivered the process cannot crash:
    from any state in which it runs with [stop] open, [finishing] unset and
    no signal pending, as when [main] enters [fetchFlickrData], every schedule
    of the goroutines alone leaves it running or exited, never dead of a
    panic or of a signal. *)
Theorem X5_no_interrupt_no_crash E cfg clause schedule s :
  state s = Running ->
  stop s = Open ->
  finishing s = false ->
  signals s = false ->
  Forall (fun move => move.1 <> Interrupt) schedule ->
  state (run E cfg clause schedule s) <> Panicked /\
  state (run E cfg clause schedule s) <> Killed.
Proof.
  intros Hst Hopen Hfin Hsig Hsched.
  enough (Hrun : forall s,
    signals s = false -> finishing s = false ->
    state s <> Panicked -> state s <> Killed ->
    (state s = Running -> pc s <> MWait -> pc s <> MDone -> stop s = Open) ->
    state (run E cfg clause schedule s) <> Panicked /\
    state (run E cfg clause schedule s) <> Killed).
  { apply Hrun; try assumption; try (rewrite Hst; discriminate). intros _ _ _. exact Hopen. }
  clear s Hst Hopen Hfin Hsig.
  induction Hsched as [|[a choice] schedule Ha _ IH]; intros s Hsig Hfin Hnp Hnk Hopen.
  - split; assumption.
  - rewrite run_cons.
    destruct (step_undisturbed E cfg clause a choice s Ha Hsig Hfin Hnp Hnk Hopen)
      as (H1 & H2 & H3 & H4 & H5).
    apply IH; assumption.
Qed.

Lemma X5_no_interrupt_no_crash_witness :
  state (init flags "cats" ∅) = Running /\
  stop (init flags "cats" ∅) = Open /\
  finishing (init flags "cats" ∅) = false /\
  signals (init flags "cats" ∅) = false /\
  Forall (fun move : actor * nat => move.1 <> Interrupt)
         [(Main, 0%nat); (Worker, 0%nat); (Watcher, 0%nat); (Main, 1%nat)] /\
  state (run healthy flags "cats"
             [(Main, 0%nat); (Worker, 0%nat); (Watcher, 0%nat); (Main, 1%nat)]
             (init flags "cats" ∅)) <> Panicked.
Proof.
  do 4 (split; [reflexivity|]). split; [repeat constructor; discriminate|].
  apply (X5_no_interrupt_no_crash healthy flags "cats"
           [(Main, 0%nat); (Worker, 0%nat); (Watcher, 0%nat); (Main, 1%nat)]
           (init flags "cats" ∅)); try reflexivity.
  repeat constructor; discriminate.
Defined.

Section ExitStatus.

Context (E : env) (cfg : config) (searchClause : string).

(** Kept by every step: an exited process shows how it ended. *)
Lemma step_exit_status a choice s :
  match state s with
  | Running =>
    match pc s with
    | MCrawl CReturned => False
    | MCrawl CFatal => False
    | MDone => False
    | _ => True
    end
  | Exited code =>
    (code = 0 /\ pc s = MDone /\ workers s = 0%nat /\
     EvLog LogFinished ∈ trace (outside s)) \/
    (code = 1 /\ (exists page, pc s = MCrawl (CPage page)) /\
     exists fatal, fatal_line fatal /\ EvLog fatal ∈ trace (outside s))
  | _ => True
  end ->
  match state (step E cfg searchClause a choice s) with
  | Running =>
    match pc (step E cfg searchClause a choice s) with
    | MCrawl CReturned => False
    | MCrawl CFatal => False
    | MDone => False
    | _ => True
    end
  | Exited code =>
    (code = 0 /\ pc (step E cfg searchClause a choice s) = MDone /\
     workers (step E cfg searchClause a choice s) = 0%nat /\
     EvLog LogFinished ∈ trace (outside (step E cfg searchClause a choice s))) \/
    (code = 1 /\
     (exists page, pc (step E cfg searchClause a choice s) = MCrawl (CPage page)) /\
     exists fatal, fatal_line fatal /\
       EvLog fatal ∈ trace (outside (step E cfg searchClause a choice s)))
  | _ => True
  end.
Proof.
  intros Hinv. unfold step.
  destruct (state s) eqn:Hst; try (rewrite Hst; assumption).
  destruct a.
  - destruct (pc s) as [c| | |] eqn:Hpc.
    + destruct (main_step_crawl E cfg searchClause choice s c Hpc)
        as (c' & q' & w' & Hstep & ->).
      destruct c' as [page|page rest| |]; cbn; rewrite ?Hst; try exact I.
      right.
      destruct (crawler_step_fatal E cfg searchClause _ _ _ _ _ _ _ Hstep)
        as (page & fatal & -> & _ & Hfatal & Hlast).
      { intros ->. exact Hinv. }
      rewrite Hpc. split; [reflexivity|]. split; [eauto|].
      exists fatal. split; [exact Hfatal|]. apply last_Some_elem_of, Hlast.
    + unfold main_step. rewrite Hpc. destruct (finishing s).
      * cbn. rewrite Hst. exact I.
      * destruct (length (grab_pictures s) =? 0)%nat.
        -- destruct (close (stop s)); cbn; rewrite ?Hst; exact I.
        -- cbn. rewrite Hst, Hpc. exact I.
    + unfold main_step. rewrite Hpc. destruct (workers s) eqn:Hw.
      * cbn. left. rewrite Hw. repeat split.
        apply elem_of_app. right. apply list_elem_of_here.
      * rewrite Hst, Hpc. exact I.
    + contradiction.
  - unfold watcher_step. destruct (watcher s); [|rewrite Hst; assumption].
    destruct (signals s).
    + destruct (stop s) eqn:Hstop; cbn; rewrite Hstop; cbn; rewrite ?Hst;
        solve [exact I | assumption].
    + cbn. rewrite Hst. assumption.
  - destruct (worker_step_frame E cfg choice s) as (_ & _ & _ & _ & _ & -> & -> & _).
    rewrite Hst. assumption.
  - unfold interrupt. destruct (notified s); cbn; rewrite ?Hst;
      solve [assumption | exact I].
Qed.

End ExitStatus.

(** X7. In every run the process can exit in two ways only.  With status
    0: then [main] has returned after its wait, every worker has returned
    before it, and "finished." has been logged.  With status 1: then the
    crawler was fetching a page and one of the three fatal lines has been
    logged. *)
Theorem X7_exit_statuses E cfg clause files schedule code :
  state (run E cfg clause schedule (init cfg clause files)) = Exited code ->
  (code = 0 /\
   pc (run E cfg clause schedule (init cfg clause files)) = MDone /\
   workers (run E cfg clause schedule (init cfg clause files)) = 0%nat /\
   EvLog LogFinished
     ∈ trace (outside (run E cfg clause schedule (init cfg clause files)))) \/
  (code = 1 /\
   (exists page,
      pc (run E cfg clause schedule (init cfg clause files)) = MCrawl (CPage page)) /\
   exists fatal, fatal_line fatal /\
     EvLog fatal
       ∈ trace (outside (run E cfg clause schedule (init cfg clause files)))).
Proof.
  intros Hexit.
  pose proof (run_invariant E cfg clause _
                (step_exit_status E cfg clause) schedule (init cfg clause files))
    as Hinv.
  cbv beta in Hinv. rewrite Hexit in Hinv. apply Hinv.
  cbn. destruct (make_panics _); exact I.
Qed.

Lemma X7_exit_statuses_witness :
  state (run search_down flags "cats" [(Main, 0%nat)] (init flags "cats" ∅)) = Exited 1 /\
  exists fatal, fatal_line fatal /\
    EvLog fatal
      ∈ trace (outside (run search_down flags "cats" [(Main, 0%nat)]
                            (init flags "cats" ∅))).
Proof.
  split; [reflexivity|].
  destruct (X7_exit_statuses search_down flags "cats" ∅ [(Main, 0%nat)] 1 eq_refl)
    as [(Hcode & _)|(_ & _ & Hfatal)]; [discriminate Hcode|exact Hfatal].
Defined.

(** X8. Drain without a signal.  When the crawler has returned, the queue
    is empty and nobody has interrupted, [main] closes [stop]; each worker
    then returns at its next select, whatever it would pick, since the queue
    stays empty; and once all of them have, [main] exits with status 0. *)
Theorem X8_drain_without_signal E cfg clause c1 c2 choices s :
  state s = Running ->
  pc s = MDrain ->
  finishing s = false ->
  stop s = Open ->
  grab_pictures s = [] ->
  length choices = workers s ->
  stop (step E cfg clause Main c1 s) = Closed /\
  state (run E cfg clause
             ((Main, c1) :: map (fun c => (Worker, c)) choices ++ [(Main, c2)]) s)
    = Exited 0 /\
  workers (run E cfg clause
               ((Main, c1) :: map (fun c => (Worker, c)) choices ++ [(Main, c2)]) s)
    = 0%nat.
Proof.
  intros Hst Hpc Hfin Hstop Hq Hlen. rewrite run_cons.
  assert (Hmain : step E cfg clause Main c1 s =
    say LogWaiting (set_pc MWait (set_stop Closed s))).
  { unfold step, main_step. rewrite Hst, Hpc, Hfin, Hq, Hstop. reflexivity. }
  rewrite Hmain. split; [reflexivity|].
  enough (Hgen : forall s1,
    state s1 = Running -> pc s1 = MWait -> stop s1 = Closed ->
    grab_pictures s1 = [] -> workers s1 = length choices ->
    state (run E cfg clause (map (fun c => (Worker, c)) choices ++ [(Main, c2)]) s1)
      = Exited 0 /\
    workers (run E cfg clause (map (fun c => (Worker, c)) choices ++ [(Main, c2)]) s1)
      = 0%nat).
  { apply Hgen; try assumption; try reflexivity. symmetry. exact Hlen. }
  clear. induction choices as [|c choices IH]; intros s1 Hst Hpc Hstop Hq Hw.
  - cbn [map app length] in *. rewrite run_cons. cbn [run foldl].
    unfold step, main_step. rewrite Hst, Hpc, Hw. cbn. split; [reflexivity|exact Hw].
  - cbn [map app length] in *. rewrite run_cons.
    assert (Hworker : step E cfg clause Worker c s1 =
      set_workers (length choices)
        (set_outside (emit (EvLog LogStoppingGrabber) (outside s1))
           (set_grab_pictures [] s1))).
    { unfold step, worker_step. rewrite Hst, Hw.
      destruct (grabPictures_iter_cases E cfg c (stop s1) (grab_pictures s1) (outside s1))
        as [(Hopen & _)|[(_ & ->)|(sized & rest & Hcons & _)]].
      - congruence.
      - rewrite Hq. reflexivity.
      - congruence. }
    rewrite Hworker. apply IH; solve [assumption | reflexivity].
Qed.

Lemma X8_drain_without_signal_witness :
  state (step search_html flags "cats" Main 0 (init flags "cats" ∅)) = Running /\
  pc (step search_html flags "cats" Main 0 (init flags "cats" ∅)) = MDrain /\
  finishing (step search_html flags "cats" Main 0 (init flags "cats" ∅)) = false /\
  stop (step search_html flags "cats" Main 0 (init flags "cats" ∅)) = Open /\
  grab_pictures (step search_html flags "cats" Main 0 (init flags "cats" ∅)) = [] /\
  length [0%nat; 1%nat; 2%nat; 3%nat]
    = workers (step search_html flags "cats" Main 0 (init flags "cats" ∅)) /\
  state (run search_html flags "cats"
             ((Main, 0%nat) :: map (fun c => (Worker, c)) [0%nat; 1%nat; 2%nat; 3%nat]
                ++ [(Main, 0%nat)])
             (step search_html flags "cats" Main 0 (init flags "cats" ∅))) = Exited 0.
Proof.
  do 6 (split; [reflexivity|]).
  apply (X8_drain_without_signal search_html flags "cats" 0%nat 0%nat
           [0%nat; 1%nat; 2%nat; 3%nat]
           (step search_html flags "cats" Main 0 (init flags "cats" ∅)));
    reflexivity.
Defined.

Section Provenance.

Context (E : env) (cfg : config) (searchClause : string).

Lemma worker_event_pushed sized new :
  Forall (worker_event cfg sized) new -> pushed new = [].
Proof.
  induction 1 as [|e new He _ IH]; [reflexivity|].
  destruct e as [[]| | | | | |]; cbn in *; try assumption; contradiction.
Qed.

Lemma worker_event_downloads sized new url :
  Forall (worker_event cfg sized) new -> url ∈ downloads new -> url = Url sized.
Proof.
  induction 1 as [|e new He _ IH]; intros Hin; [inversion Hin|].
  destruct e as [[]| | | | | |]; cbn in *; try (apply IH, Hin); try contradiction.
  apply elem_of_cons in Hin as [->|Hin]; [assumption|apply IH, Hin].
Qed.

Lemma worker_event_created sized new path :
  Forall (worker_event cfg sized) new -> path ∈ created new ->
  path = destination cfg sized.
Proof.
  induction 1 as [|e new He _ IH]; intros Hin; [inversion Hin|].
  destruct e as [[]| | |p [] | | |]; cbn in *; try (apply IH, Hin); try contradiction.
  apply elem_of_cons in Hin as [->|Hin]; [assumption|apply IH, Hin].
Qed.

(** Every step but a step of the crawler either leaves queue and files
    alone and logs or sleeps at most, or is a worker taking the head of the
    queue and handling it. *)
Lemma step_not_crawl a choice s :
  (a = Main -> crawler_done s) ->
  let s' := step E cfg searchClause a choice s in
  (a <> Main -> pc s' = pc s) /\
  (crawler_done s -> crawler_done s') /\
  exists new,
    trace (outside s') = (trace (outside s) ++ new)%list /\
    page_fetches new = [] /\ offers new = [] /\ pushed new = [] /\
    ((grab_pictures s' = grab_pictures s /\ fs (outside s') = fs (outside s) /\
      downloads new = [] /\ created new = []) \/
     (exists sized,
        grab_pictures s = sized :: grab_pictures s' /\
        Forall (worker_event cfg sized) new)).
Proof.
  intros Hmain. cbv zeta.
  assert (Hlog : forall s' new,
    pc s' = pc s \/ (crawler_done s /\ crawler_done s') ->
    grab_pictures s' = grab_pictures s -> fs (outside s') = fs (outside s) ->
    trace (outside s') = (trace (outside s) ++ new)%list ->
    page_fetches new = [] -> offers new = [] -> pushed new = [] ->
    downloads new = [] -> created new = [] ->
    (a <> Main -> pc s' = pc s) ->
    (a <> Main -> pc s' = pc s) /\
    (crawler_done s -> crawler_done s') /\
    exists new,
      trace (outside s') = (trace (outside s) ++ new)%list /\
      page_fetches new = [] /\ offers new = [] /\ pushed new = [] /\
      ((grab_pictures s' = grab_pictures s /\ fs (outside s') = fs (outside s) /\
        downloads new = [] /\ created new = []) \/
       (exists sized,
          grab_pictures s = sized :: grab_pictures s' /\
          Forall (worker_event cfg sized) new))).
  { intros s' new Hpc Hq Hfs Htr H1 H2 H3 H4 H5 Ha. split; [exact Ha|]. split.
    - destruct Hpc as [Hpc|[_ Hd]]; [|intros _; exact Hd].
      unfold crawler_done. rewrite Hpc. tauto.
    - exists new. repeat split; try assumption. left. repeat split; assumption. }
  assert (Hnil : forall l : list event, l = (l ++ [])%list)
    by (intros l; symmetry; apply app_nil_r).
  unfold step. destruct (state s) eqn:Hst;
    try (apply (Hlog s []); solve [reflexivity | left; reflexivity | apply Hnil]).
  destruct a.
  - specialize (Hmain eq_refl). unfold crawler_done in Hmain.
    unfold main_step. destruct (pc s) as [c| | |] eqn:Hpc; [contradiction| | |].
    + destruct (finishing s).
      * apply (Hlog _ [EvLog LogWaiting]); try reflexivity; try congruence.
        right. unfold crawler_done. rewrite Hpc. cbn. tauto.
      * destruct (length (grab_pictures s) =? 0)%nat.
        -- destruct (close (stop s)).
           ++ apply (Hlog _ [EvLog LogWaiting]); try reflexivity; try congruence.
              right. unfold crawler_done. rewrite Hpc. cbn. tauto.
           ++ apply (Hlog _ [EvLog LogFinished]); try reflexivity; try congruence.
              left. exact Hpc.
        -- apply (Hlog _ [EvSleep 1]); try reflexivity; try congruence.
           left. exact Hpc.
    + destruct (workers s).
      * apply (Hlog _ [EvLog LogFinished]); try reflexivity; try congruence.
        right. unfold crawler_done. rewrite Hpc. cbn. tauto.
      * apply (Hlog _ []); try reflexivity; try congruence; try apply Hnil.
        left. exact Hpc.
    + apply (Hlog _ []); try reflexivity; try congruence; try apply Hnil.
      left. exact Hpc.
  - unfold watcher_step. destruct (watcher s).
    + destruct (signals s).
      * destruct (stop s) eqn:Hstop; cbn [set_finishing say set_signals stop set_outside];
          rewrite Hstop; cbn [close].
        -- apply (Hlog _ [EvLog LogCaughtSignal]); try reflexivity. left. reflexivity.
        -- apply (Hlog _ [EvLog LogCaughtSignal]); try reflexivity. left. reflexivity.
      * apply (Hlog _ [EvSleep 1]); try reflexivity. left. reflexivity.
    + apply (Hlog _ []); try reflexivity; try apply Hnil. left. reflexivity.
  - unfold worker_step. destruct (workers s).
    + apply (Hlog _ []); try reflexivity; try apply Hnil. left. reflexivity.
    + destruct (grabPictures_iter_cases E cfg choice (stop s) (grab_pictures s) (outside s))
        as [(_ & _ & ->)|[(_ & ->)|(sized & rest & Hq & ->)]].
      * apply (Hlog _ []); try reflexivity; try apply Hnil. left. reflexivity.
      * apply (Hlog _ [EvLog LogStoppingGrabber]); try reflexivity. left. reflexivity.
      * split; [reflexivity|]. split; [unfold crawler_done; cbn; tauto|].
        destruct (fetch_picture_events E cfg sized (outside s)) as (new & Htrace & Hall).
        exists new. cbn. split; [exact Htrace|].
        assert (Hquiet : Forall quiet new).
        { eapply Forall_impl; [exact Hall|]. apply worker_event_quiet. }
        split; [apply quiet_page_fetches, Hquiet|].
        split; [apply quiet_offers, Hquiet|].
        split; [eapply worker_event_pushed, Hall|].
        right. exists sized. split; [exact Hq|]. exact Hall.
  - unfold interrupt. destruct (notified s);
      (apply (Hlog _ []); try reflexivity; try apply Hnil; left; reflexivity).
Qed.

End Provenance.

Section Crawl.

Context (E : env) (cfg : config) (searchClause : string).

(** A step of the crawler seen from [main]. *)
Lemma main_step_crawl_result choice s c :
  state s = Running -> pc s = MCrawl c ->
  exists c' q' w',
    crawler_step E cfg searchClause choice (stop s) (grab_pictures s) c (outside s)
      = (c', q', w') /\
    grab_pictures (step E cfg searchClause Main choice s) = q' /\
    outside (step E cfg searchClause Main choice s) = w' /\
    ((c' = CFatal /\
      state (step E cfg searchClause Main choice s) = Exited 1 /\
      pc (step E cfg searchClause Main choice s) = MCrawl c) \/
     (c' = CReturned /\
      state (step E cfg searchClause Main choice s) = Running /\
      pc (step E cfg searchClause Main choice s) = MDrain) \/
     (c' <> CFatal /\ c' <> CReturned /\
      state (step E cfg searchClause Main choice s) = Running /\
      pc (step E cfg searchClause Main choice s) = MCrawl c')).
Proof.
  intros Hst Hpc. unfold step. rewrite Hst.
  destruct (main_step_crawl E cfg searchClause choice s c Hpc)
    as (c' & q' & w' & Hstep & ->).
  exists c', q', w'. split; [exact Hstep|].
  destruct c' as [page|page rest| |].
  - split; [reflexivity|]. split; [reflexivity|]. right. right.
    repeat split; solve [discriminate | exact Hst].
  - split; [reflexivity|]. split; [reflexivity|]. right. right.
    repeat split; solve [discriminate | exact Hst].
  - split; [reflexivity|]. split; [reflexivity|]. right. left.
    repeat split. exact Hst.
  - split; [reflexivity|]. split; [reflexivity|]. left.
    repeat split. exact Hpc.
Qed.

(** Which page fetches a step of the crawler issues, and where it stands
    afterwards. *)
Lemma crawler_step_pages choice stop queue c w c' queue' w' :
  crawler_step E cfg searchClause choice stop queue c w = (c', queue', w') ->
  match c with
  | CPage page =>
    (page_fetches (trace w') = page_fetches (trace w) /\
     (c' = CReturned \/ c' = CFatal)) \/
    (page <= maxPages cfg /\
     page_fetches (trace w')
       = (page_fetches (trace w) ++ [search_url E searchClause page])%list /\
     (c' = CReturned \/ c' = CFatal \/ exists rest, c' = CPhotos page rest))
  | CPhotos page rest =>
    page_fetches (trace w') = page_fetches (trace w) /\
    (c' = CReturned \/ (exists rest', c' = CPhotos page rest') \/
     c' = CPage (wrap_int (page + 1)))
  | _ => c' = c /\ page_fetches (trace w') = page_fetches (trace w)
  end.
Proof.
  intros Hstep. destruct c as [page|page [|photo rest]| |]; cbn [crawler_step] in Hstep.
  - destruct (Z.leb_spec page (maxPages cfg)) as [Hle|Hgt].
    + destruct (select choice (stop_ready stop)).
      * injection Hstep as <- <- <-. left. cbn. rewrite page_fetches_app, app_nil_r. auto.
      * unfold fetch_page in Hstep. destruct (http_NewRequest E _).
        -- right. split; [exact Hle|].
           destruct (client_Do E _ _) as [res|].
           ++ destruct (negb _); [|destruct (BodyErr res);
                [|destruct (json_Unmarshal E (Body res))]];
                injection Hstep as <- <- <-; cbn;
                rewrite ?page_fetches_app; cbn; rewrite ?app_nil_r; eauto 6.
           ++ injection Hstep as <- <- <-. cbn.
              rewrite ?page_fetches_app. cbn. rewrite ?app_nil_r. auto.
        -- injection Hstep as <- <- <-. left. cbn.
           rewrite page_fetches_app, app_nil_r. auto.
    + injection Hstep as <- <- <-. left. auto.
  - injection Hstep as <- <- <-. auto.
  - destruct (Sizes photo !! sizeWanted cfg) as [sized|].
    + destruct (select choice _) as [[]|]; injection Hstep as <- <- <-; cbn;
        rewrite ?page_fetches_app; cbn; rewrite ?app_nil_r; eauto 6.
    + injection Hstep as <- <- <-. eauto 6.
  - injection Hstep as <- <- <-. auto.
  - injection Hstep as <- <- <-. auto.
Qed.

(** Whatever the crawler offers comes from the photos it still has to
    visit, and those come from a decoded page. *)
Lemma crawler_step_wanted choice stop queue c w c' queue' w' :
  crawler_step E cfg searchClause choice stop queue c w = (c', queue', w') ->
  match c with CPhotos _ rest => Forall (listed E) rest | _ => True end ->
  match c' with CPhotos _ rest' => Forall (listed E) rest' | _ => True end /\
  exists new,
    trace w' = (trace w ++ new)%list /\ Forall (wanted E cfg) (offers new).
Proof.
  intros Hstep Hc.
  assert (Hnil : trace w = (trace w ++ [])%list) by (symmetry; apply app_nil_r).
  destruct c as [page|page [|photo rest]| |]; cbn [crawler_step] in Hstep.
  - destruct (page <=? maxPages cfg).
    + destruct (select choice (stop_ready stop)).
      * injection Hstep as <- <- <-. split; [exact I|].
        exists [EvLog LogStoppingSpider]. split; [reflexivity|constructor].
      * unfold fetch_page in Hstep. destruct (http_NewRequest E _).
        -- destruct (client_Do E _ _) as [res|].
           ++ destruct (negb _); [|destruct (BodyErr res);
                [|destruct (json_Unmarshal E (Body res)) as [result|] eqn:Hjson]];
                injection Hstep as <- <- <-.
              ** split; [exact I|]. eexists. split;
                   [cbn; rewrite <- ?app_assoc; reflexivity|constructor].
              ** split; [exact I|]. eexists. split;
                   [cbn; rewrite <- ?app_assoc; reflexivity|constructor].
              ** split.
                 { apply Forall_forall. intros photo Hin.
                   exists (Body res), result. split; assumption. }
                 exists [EvDo (search_url E searchClause page)].
                 split; [reflexivity|constructor].
              ** split; [exact I|]. eexists. split;
                   [cbn; rewrite <- ?app_assoc; reflexivity|constructor].
           ++ injection Hstep as <- <- <-. split; [exact I|]. eexists. split;
                [cbn; rewrite <- ?app_assoc; reflexivity|constructor].
        -- injection Hstep as <- <- <-. split; [exact I|].
           exists [EvLog FatalCreatingRequest]. split; [reflexivity|constructor].
    + injection Hstep as <- <- <-. split; [exact I|]. exists []. split; [exact Hnil|constructor].
  - injection Hstep as <- <- <-. split; [exact I|]. exists []. split; [exact Hnil|constructor].
  - apply Forall_cons in Hc as [Hphoto Hrest].
    destruct (Sizes photo !! sizeWanted cfg) as [sized|] eqn:Hsized.
    + assert (Hw : wanted E cfg sized) by (exists photo; split; assumption).
      destruct (select choice _) as [[]|]; injection Hstep as <- <- <-.
      * split; [exact I|]. exists [EvOffer sized; EvLog LogStoppingSpider].
        split; [cbn; rewrite <- app_assoc; reflexivity|]. repeat constructor. exact Hw.
      * split; [exact Hrest|]. exists [EvOffer sized; EvLog (LogPushed (Filename sized))].
        split; [cbn; rewrite <- app_assoc; reflexivity|]. repeat constructor. exact Hw.
      * split; [exact Hrest|]. exists [EvOffer sized].
        split; [reflexivity|]. repeat constructor. exact Hw.
    + injection Hstep as <- <- <-. split; [exact Hrest|].
      exists []. split; [exact Hnil|constructor].
  - injection Hstep as <- <- <-. split; [exact I|]. exists []. split; [exact Hnil|constructor].
  - injection Hstep as <- <- <-. split; [exact I|]. exists []. split; [exact Hnil|constructor].
Qed.

End Crawl.

Lemma wrap_int_small z : - 2 ^ 63 <= z < 2 ^ 63 -> wrap_int z = z.
Proof. intros Hz. unfold wrap_int. rewrite Z.mod_small; lia. Qed.

Section Pagination.

Context (E : env) (cfg : config) (searchClause : string).

(** Kept by every step: [k] pages have been requested, namely pages 1 to
    [k], and the crawler stands on page [k] or at the head of the loop for
    page [k + 1]. *)
Lemma step_pages a choice s :
  maxPages cfg < 2 ^ 63 - 1 ->
  (exists k : nat,
     page_fetches (trace (outside s))
       = map (fun i => search_url E searchClause (Z.of_nat i)) (seq 1 k) /\
     Z.of_nat k <= Z.max 0 (maxPages cfg) /\
     (state s = Running ->
      match pc s with
      | MCrawl (CPage page) => page = Z.of_nat k + 1
      | MCrawl (CPhotos page _) => page = Z.of_nat k
      | MCrawl _ => False
      | _ => True
      end)) ->
  exists k : nat,
    page_fetches (trace (outside (step E cfg searchClause a choice s)))
      = map (fun i => search_url E searchClause (Z.of_nat i)) (seq 1 k) /\
    Z.of_nat k <= Z.max 0 (maxPages cfg) /\
    (state (step E cfg searchClause a choice s) = Running ->
     match pc (step E cfg searchClause a choice s) with
     | MCrawl (CPage page) => page = Z.of_nat k + 1
     | MCrawl (CPhotos page _) => page = Z.of_nat k
     | MCrawl _ => False
     | _ => True
     end).
Proof.
  intros Hmax (k & Hfetched & Hk & Hpc).
  destruct (state s) eqn:Hst;
    try (rewrite step_halted by congruence; exists k; rewrite Hst; auto).
  specialize (Hpc eq_refl).
  assert (Hother : (a = Main -> crawler_done s) ->
    exists k : nat,
      page_fetches (trace (outside (step E cfg searchClause a choice s)))
        = map (fun i => search_url E searchClause (Z.of_nat i)) (seq 1 k) /\
      Z.of_nat k <= Z.max 0 (maxPages cfg) /\
      (state (step E cfg searchClause a choice s) = Running ->
       match pc (step E cfg searchClause a choice s) with
       | MCrawl (CPage page) => page = Z.of_nat k + 1
       | MCrawl (CPhotos page _) => page = Z.of_nat k
       | MCrawl _ => False
       | _ => True
       end)).
  { intros Hdone.
    destruct (step_not_crawl E cfg searchClause a choice s Hdone)
      as (Hsame & Hkeep & new & Htrace & Hnone & _).
    exists k. rewrite Htrace, page_fetches_app, Hnone, app_nil_r.
    split; [exact Hfetched|]. split; [exact Hk|]. intros _.
    destruct a; try (rewrite Hsame by discriminate; exact Hpc).
    specialize (Hkeep (Hdone eq_refl)). unfold crawler_done in Hkeep.
    destruct (pc (step E cfg searchClause Main choice s)); [contradiction|exact I..]. }
  destruct a; try (apply Hother; discriminate).
  destruct (pc s) as [c| | |] eqn:Hpcs;
    try (apply Hother; intros _; unfold crawler_done; rewrite Hpcs; exact I).
  destruct (main_step_crawl_result E cfg searchClause choice s c Hst Hpcs)
    as (c' & q' & w' & Hstep & _ & -> & Hres).
  apply crawler_step_pages in Hstep.
  destruct c as [page|page rest| |]; try contradiction.
  - subst page. destruct Hstep as [[Hsame Hc']|(Hle & Hmore & Hc')].
    + exists k. rewrite Hsame. split; [exact Hfetched|]. split; [exact Hk|].
      destruct Hres as [(_ & -> & _)|[(_ & _ & ->)|(Hnf & Hnr & _)]];
        [discriminate|intros _; exact I|].
      destruct Hc' as [->| ->]; congruence.
    + exists (S k). rewrite Hmore, Hfetched, seq_S, map_app. cbn [map].
      replace (Z.of_nat (1 + k)) with (Z.of_nat k + 1) by lia.
      split; [reflexivity|]. split; [lia|].
      destruct Hres as [(_ & -> & _)|[(_ & _ & ->)|(Hnf & Hnr & _ & ->)]];
        [discriminate|intros _; exact I|].
      destruct Hc' as [->|[->|[rest ->]]]; [congruence|congruence|].
      intros _. lia.
  - subst page. destruct Hstep as [Hsame Hc']. exists k. rewrite Hsame.
    split; [exact Hfetched|]. split; [exact Hk|].
    destruct Hres as [(_ & -> & _)|[(_ & _ & ->)|(Hnf & Hnr & _ & ->)]];
      [discriminate|intros _; exact I|].
    destruct Hc' as [->|[[rest' ->]| ->]]; [congruence|intros _; reflexivity|].
    intros _. apply wrap_int_small. lia.
Qed.

End Pagination.

(** X9. Unless [max_pages] is the largest [int], the pages requested from
    the search endpoint in any run are pages 1, 2, ..., k in this order, each
    once, for some k that does not exceed [max_pages] (none at all when
    [max_pages] is zero or negative). *)
Theorem X9_pages_in_order E cfg clause files schedule :
  maxPages cfg < 2 ^ 63 - 1 ->
  exists k : nat,
    Z.of_nat k <= Z.max 0 (maxPages cfg) /\
    page_fetches (trace (outside (run E cfg clause schedule (init cfg clause files))))
      = map (fun i => search_url E clause (Z.of_nat i)) (seq 1 k).
Proof.
  intros Hmax.
  destruct (run_invariant E cfg clause _
              (fun a choice s => step_pages E cfg clause a choice s Hmax)
              schedule (init cfg clause files)) as (k & Hfetched & Hk & _).
  - exists 0%nat. split; [cbn; destruct (make_panics _); reflexivity|].
    split; [lia|]. intros _. reflexivity.
  - exists k. split; assumption.
Qed.

Lemma X9_pages_in_order_witness :
  maxPages flags < 2 ^ 63 - 1 /\
  exists k : nat,
    Z.of_nat k <= Z.max 0 (maxPages flags) /\
    page_fetches (trace (outside (run healthy flags "cats"
                                      (replicate 9 (Main, 0%nat))
                                      (init flags "cats" ∅))))
      = map (fun i => search_url healthy "cats" (Z.of_nat i)) (seq 1 k).
Proof.
  split; [vm_compute; reflexivity|].
  apply (X9_pages_in_order healthy flags "cats" ∅ (replicate 9 (Main, 0%nat))).
  vm_compute. reflexivity.
Defined.

Section Shape.

Context (E : env) (cfg : config) (searchClause : string).

(** Every step is a step of the crawler, or one of the steps described by
    [step_not_crawl]. *)
Lemma step_shape a choice s :
  (exists c c',
     state s = Running /\ a = Main /\ pc s = MCrawl c /\
     crawler_step E cfg searchClause choice (stop s) (grab_pictures s) c (outside s)
       = (c', grab_pictures (step E cfg searchClause a choice s),
          outside (step E cfg searchClause a choice s)) /\
     (state (step E cfg searchClause a choice s) = Running ->
      pc (step E cfg searchClause a choice s) = MDrain \/
      pc (step E cfg searchClause a choice s) = MCrawl c')) \/
  ((state (step E cfg searchClause a choice s) = Running ->
    state s = Running /\
    (pc (step E cfg searchClause a choice s) = pc s \/
     crawler_done (step E cfg searchClause a choice s))) /\
   exists new,
     trace (outside (step E cfg searchClause a choice s))
       = (trace (outside s) ++ new)%list /\
     page_fetches new = [] /\ offers new = [] /\ pushed new = [] /\
     ((grab_pictures (step E cfg searchClause a choice s) = grab_pictures s /\
       fs (outside (step E cfg searchClause a choice s)) = fs (outside s) /\
       downloads new = [] /\ created new = []) \/
      (exists sized,
         grab_pictures s = sized :: grab_pictures (step E cfg searchClause a choice s) /\
         Forall (worker_event cfg sized) new))).
Proof.
  assert (state s = Running \/ state s <> Running) as [Hst|Hst]
    by (destruct (state s); auto; right; discriminate).
  - assert (Hother : (a = Main -> crawler_done s) ->
      (state (step E cfg searchClause a choice s) = Running ->
       state s = Running /\
       (pc (step E cfg searchClause a choice s) = pc s \/
        crawler_done (step E cfg searchClause a choice s))) /\
      exists new,
        trace (outside (step E cfg searchClause a choice s))
          = (trace (outside s) ++ new)%list /\
        page_fetches new = [] /\ offers new = [] /\ pushed new = [] /\
        ((grab_pictures (step E cfg searchClause a choice s) = grab_pictures s /\
          fs (outside (step E cfg searchClause a choice s)) = fs (outside s) /\
          downloads new = [] /\ created new = []) \/
         (exists sized,
            grab_pictures s = sized :: grab_pictures (step E cfg searchClause a choice s) /\
            Forall (worker_event cfg sized) new))).
    { intros Hdone.
      destruct (step_not_crawl E cfg searchClause a choice s Hdone)
        as (Hsame & Hkeep & Hnew).
      split; [|exact Hnew]. intros _. split; [exact Hst|].
      destruct a; try (left; apply Hsame; discriminate).
      right. apply Hkeep, Hdone. reflexivity. }
    destruct a; try (right; apply Hother; discriminate).
    destruct (pc s) as [c| | |] eqn:Hpc;
      try (right; apply Hother; intros _; unfold crawler_done; rewrite Hpc; exact I).
    left. destruct (main_step_crawl_result E cfg searchClause choice s c Hst Hpc)
      as (c' & q' & w' & Hstep & <- & <- & Hres).
    exists c, c'. repeat split; try assumption.
    intros Hrun.
    destruct Hres as [(_ & Hex & _)|[(_ & _ & ->)|(_ & _ & _ & ->)]]; [congruence|auto..].
  - right. rewrite step_halted by assumption. split; [congruence|].
    exists []. rewrite app_nil_r. repeat split. left. repeat split.
Qed.

(** Kept by every step: what has been offered is wanted, and the photos
    the crawler still has to visit are listed. *)
Lemma step_offers_wanted a choice s :
  Forall (wanted E cfg) (offers (trace (outside s))) /\
  (state s = Running ->
   match pc s with
   | MCrawl (CPhotos _ rest) => Forall (listed E) rest
   | _ => True
   end) ->
  Forall (wanted E cfg) (offers (trace (outside (step E cfg searchClause a choice s)))) /\
  (state (step E cfg searchClause a choice s) = Running ->
   match pc (step E cfg searchClause a choice s) with
   | MCrawl (CPhotos _ rest) => Forall (listed E) rest
   | _ => True
   end).
Proof.
  intros [Hoffers Hrest].
  destruct (step_shape a choice s)
    as [(c & c' & Hst & _ & Hpc & Hstep & Hpc')|(Hkeep & new & Htrace & _ & Hnone & _)].
  - specialize (Hrest Hst). rewrite Hpc in Hrest.
    destruct (crawler_step_wanted E cfg searchClause _ _ _ _ _ _ _ _ Hstep)
      as (Hrest' & new & Htrace & Hnew).
    { destruct c; exact Hrest || exact I. }
    rewrite Htrace, offers_app. split; [apply Forall_app; split; assumption|].
    intros Hrun. destruct (Hpc' Hrun) as [-> | ->]; [exact I|].
    destruct c'; exact Hrest' || exact I.
  - rewrite Htrace, offers_app, Hnone, app_nil_r. split; [exact Hoffers|].
    intros Hrun. destruct (Hkeep Hrun) as (Hst & [-> |Hdone]); [exact (Hrest Hst)|].
    unfold crawler_done in Hdone.
    destruct (pc (step E cfg searchClause a choice s)); [contradiction|exact I..].
Qed.

(** Kept by every step: queue, downloads and created files all trace back
    to offered descriptors. *)
Lemma step_provenance a choice s :
  ((forall sized, sized ∈ grab_pictures s -> sized ∈ offers (trace (outside s))) /\
   (forall url, url ∈ downloads (trace (outside s)) ->
      exists sized, sized ∈ offers (trace (outside s)) /\ url = Url sized) /\
   (forall path, path ∈ created (trace (outside s)) ->
      exists sized, sized ∈ offers (trace (outside s)) /\ path = destination cfg sized)) ->
  let s' := step E cfg searchClause a choice s in
  (forall sized, sized ∈ grab_pictures s' -> sized ∈ offers (trace (outside s'))) /\
  (forall url, url ∈ downloads (trace (outside s')) ->
     exists sized, sized ∈ offers (trace (outside s')) /\ url = Url sized) /\
  (forall path, path ∈ created (trace (outside s')) ->
     exists sized, sized ∈ offers (trace (outside s')) /\ path = destination cfg sized).
Proof.
  intros (Hq & Hd & Hc). cbv zeta.
  destruct (step_shape a choice s)
    as [(c & c' & _ & _ & _ & Hstep & _)|(_ & new & Htrace & _ & Hnone & _ & Hcases)].
  - apply crawler_step_effect in Hstep
      as (new & Htrace & Hfiles & Hnd & Hnc & Hqueue).
    rewrite Htrace, offers_app, downloads_app, created_app, Hnd, Hnc, !app_nil_r.
    split; [|split].
    + intros sized Hin. apply elem_of_app.
      destruct Hqueue as [[Hsame _]|(sized' & Hpush & _ & _ & Hoff)].
      * left. apply Hq. rewrite <- Hsame. exact Hin.
      * rewrite Hpush in Hin. apply elem_of_app in Hin as [Hin|Hin].
        -- left. apply Hq, Hin.
        -- right. rewrite Hoff. exact Hin.
    + intros url Hin. destruct (Hd url Hin) as (sized & Hs & ->).
      exists sized. split; [apply elem_of_app; left; exact Hs|reflexivity].
    + intros path Hin. destruct (Hc path Hin) as (sized & Hs & ->).
      exists sized. split; [apply elem_of_app; left; exact Hs|reflexivity].
  - rewrite Htrace, offers_app, downloads_app, created_app, Hnone, !app_nil_r.
    destruct Hcases as [(Hsame & Hfiles & Hnd & Hnc)|(sized & Hhead & Hall)].
    + rewrite Hsame, Hnd, Hnc, !app_nil_r. repeat split; assumption.
    + assert (Hsized : sized ∈ offers (trace (outside s))).
      { apply Hq. rewrite Hhead. apply elem_of_cons. left. reflexivity. }
      split; [|split].
      * intros sized' Hin. apply Hq. rewrite Hhead. apply elem_of_cons. right. exact Hin.
      * intros url Hin. apply elem_of_app in Hin as [Hin|Hin]; [apply Hd, Hin|].
        exists sized. split; [exact Hsized|].
        eapply worker_event_downloads; eassumption.
      * intros path Hin. apply elem_of_app in Hin as [Hin|Hin]; [apply Hc, Hin|].
        exists sized. split; [exact Hsized|].
        eapply worker_event_created; eassumption.
Qed.


End Shape.

(** X10. The crawler makes nothing up: in every run, every descriptor it
    offers to the queue is the entry, under the size asked for, of a photo
    that stands on a page the decoder accepted. *)
Theorem X10_offers_come_from_pages E cfg clause files schedule sized :
  sized ∈ offers (trace (outside (run E cfg clause schedule (init cfg clause files)))) ->
  exists body result photo,
    json_Unmarshal E body = Some result /\
    photo ∈ Photos result /\
    Sizes photo !! sizeWanted cfg = Some sized.
Proof.
  intros Hin.
  destruct (run_invariant E cfg clause _ (step_offers_wanted E cfg clause)
              schedule (init cfg clause files)) as [Hall _].
  - split; [cbn; destruct (make_panics _); repeat constructor|]. intros _. exact I.
  - rewrite Forall_forall in Hall.
    destruct (Hall sized Hin) as (photo & (body & result & Hjson & Hphoto) & Hsized).
    exists body, result, photo. repeat split; assumption.
Qed.

Lemma X10_offers_come_from_pages_witness :
  original "cat1"
    ∈ offers (trace (outside (run healthy flags "cats" [(Main, 0%nat); (Main, 0%nat)]
                                  (init flags "cats" ∅)))) /\
  exists body result photo,
    json_Unmarshal healthy body = Some result /\
    photo ∈ Photos result /\
    Sizes photo !! sizeWanted flags = Some (original "cat1").
Proof.
  assert (Hin : original "cat1"
    ∈ offers (trace (outside (run healthy flags "cats" [(Main, 0%nat); (Main, 0%nat)]
                                  (init flags "cats" ∅))))).
  { vm_compute. apply list_elem_of_here. }
  split; [exact Hin|].
  exact (X10_offers_come_from_pages healthy flags "cats" ∅
           [(Main, 0%nat); (Main, 0%nat)] (original "cat1") Hin).
Defined.

(** X11. The workers make nothing up either: in every run, what is in the
    queue has been offered by the crawler, every GET goes to the URL of an
    offered descriptor, and every call that creates a file is made with the
    destination path of an offered descriptor. *)
Theorem X11_only_offered_is_fetched E cfg clause files schedule :
  (forall sized,
     sized ∈ grab_pictures (run E cfg clause schedule (init cfg clause files)) ->
     sized ∈ offers (trace (outside (run E cfg clause schedule (init cfg clause files))))) /\
  (forall url,
     url ∈ downloads (trace (outside (run E cfg clause schedule (init cfg clause files)))) ->
     exists sized,
       sized ∈ offers (trace (outside (run E cfg clause schedule (init cfg clause files))))
       /\ url = Url sized) /\
  (forall path,
     path ∈ created (trace (outside (run E cfg clause schedule (init cfg clause files)))) ->
     exists sized,
       sized ∈ offers (trace (outside (run E cfg clause schedule (init cfg clause files))))
       /\ path = targetDirectory cfg +:+ "/" +:+ Filename sized).
Proof.
  apply (run_invariant E cfg clause _ (step_provenance E cfg clause)).
  cbn. destruct (make_panics _); repeat split.
  all: intros x Hin; cbn in Hin; inversion Hin.
Qed.


(** X13. With [-concurrency 0] the program downloads nothing: the channel
    has no buffer and there is no worker to receive, so in every run every
    offer falls through to the default; nothing is ever pushed, fetched or
    written. *)
Theorem X13_no_workers_no_downloads E cfg clause files schedule :
  concurrency cfg = 0 ->
  grab_pictures (run E cfg clause schedule (init cfg clause files)) = [] /\
  pushed (trace (outside (run E cfg clause schedule (init cfg clause files)))) = [] /\
  downloads (trace (outside (run E cfg clause schedule (init cfg clause files)))) = [] /\
  created (trace (outside (run E cfg clause schedule (init cfg clause files)))) = [] /\
  fs (outside (run E cfg clause schedule (init cfg clause files))) = files.
Proof.
  intros Hzero.
  assert (Hcap : capacity cfg = 0%nat) by (unfold capacity; rewrite Hzero; reflexivity).
  apply (run_invariant E cfg clause
           (fun s => grab_pictures s = [] /\ pushed (trace (outside s)) = [] /\
                     downloads (trace (outside s)) = [] /\
                     created (trace (outside s)) = [] /\
                     fs (outside s) = files)).
  - intros a choice s (Hq & Hp & Hd & Hc & Hfs).
    destruct (step_shape E cfg clause a choice s)
      as [(c & c' & _ & _ & _ & Hstep & _)|(_ & new & Htrace & _ & _ & Hnone & Hcases)].
    + apply crawler_step_effect in Hstep
        as (new & Htrace & Hfiles & Hnd & Hnc & [[Hsame Hnp]|(sized & _ & Hroom & _)]);
        [|lia].
      rewrite Htrace, pushed_app, downloads_app, created_app.
      rewrite Hsame, Hfiles, Hnp, Hnd, Hnc, Hp, Hd, Hc. repeat split; assumption.
    + destruct Hcases as [(Hsame & Hfiles & Hnd & Hnc)|(sized & Hhead & _)];
        [|congruence].
      rewrite Htrace, pushed_app, downloads_app, created_app.
      rewrite Hsame, Hfiles, Hnone, Hnd, Hnc, Hp, Hd, Hc. repeat split; assumption.
  - cbn. destruct (make_panics _); repeat split.
Qed.

Lemma X13_no_workers_no_downloads_witness :
  concurrency {| targetDirectory := "/tmp"; sizeWanted := "o";
                 maxPages := 3; concurrency := 0 |} = 0 /\
  downloads (trace (outside
    (run healthy
         {| targetDirectory := "/tmp"; sizeWanted := "o"; maxPages := 3; concurrency := 0 |}
         "cats" (replicate 20 (Main, 0%nat))
         (init {| targetDirectory := "/tmp"; sizeWanted := "o";
                  maxPages := 3; concurrency := 0 |} "cats" ∅)))) = [].
Proof.
  split; [reflexivity|].
  apply (X13_no_workers_no_downloads healthy
           {| targetDirectory := "/tmp"; sizeWanted := "o"; maxPages := 3; concurrency := 0 |}
           "cats" ∅ (replicate 20 (Main, 0%nat))).
  reflexivity.
Defined.

Section AfterCancellation.

Context (E : env) (cfg : config) (searchClause : string).


(** With [stop] closed a step of the crawler fetches no page, and what it
    has offered together with what it may still offer can only lose a tail. *)
Lemma crawler_step_closed choice queue c w c' queue' w' :
  crawler_step E cfg searchClause choice Closed queue c w = (c', queue', w') ->
  page_fetches (trace w') = page_fetches (trace w) /\
  (c' = CFatal -> c = CFatal) /\
  (offers (trace w') ++ pend cfg c')%list
    `prefix_of` (offers (trace w) ++ pend cfg c)%list.
Proof.
  intros Hstep. destruct c as [page|page [|photo rest]| |]; cbn [crawler_step] in Hstep.
  - cbn [stop_ready] in Hstep. rewrite select_singleton in Hstep.
    destruct (page <=? maxPages cfg); injection Hstep as <- <- <-; cbn;
      rewrite ?page_fetches_app, ?offers_app; cbn; rewrite ?app_nil_r;
      repeat split; try discriminate; reflexivity.
  - injection Hstep as <- <- <-. repeat split; try discriminate. reflexivity.
  - cbn [pend omap list_omap].
    destruct (Sizes photo !! sizeWanted cfg) as [sized|].
    + destruct (select choice _) as [[]|]; injection Hstep as <- <- <-; cbn;
        rewrite ?page_fetches_app, ?offers_app; cbn; rewrite ?app_nil_r;
        repeat split; try discriminate.
      * apply prefix_app, prefix_cons, prefix_nil.
      * rewrite <- !app_assoc. reflexivity.
      * rewrite <- !app_assoc. reflexivity.
    + injection Hstep as <- <- <-. repeat split; try discriminate. reflexivity.
  - injection Hstep as <- <- <-. repeat split; try discriminate. reflexivity.
  - injection Hstep as <- <- <-. repeat split; reflexivity.
Qed.

(** In a run of the crawler whose selects all see [stop] closed no page is
    fetched, and offers can only eat into what was pending. *)
Lemma crawler_run_closed obs c w :
  Forall (fun o : nat * signal_chan * list FlickrResultPhotoSize => o.1.2 = Closed) obs ->
  page_fetches (trace (crawler_run E cfg searchClause obs c w).2)
    = page_fetches (trace w) /\
  (exists later,
     offers (trace (crawler_run E cfg searchClause obs c w).2)
       = (offers (trace w) ++ later)%list) /\
  (offers (trace (crawler_run E cfg searchClause obs c w).2)
     ++ pend cfg (crawler_run E cfg searchClause obs c w).1)%list
    `prefix_of` (offers (trace w) ++ pend cfg c)%list.
Proof.
  intros Hclosed. revert c w.
  induction Hclosed as [|[[choice stop] queue] obs Ho _ IH]; intros c w.
  - cbn. split; [reflexivity|].
    split; [exists []; rewrite app_nil_r; reflexivity|reflexivity].
  - cbn in Ho. subst stop. cbn [crawler_run].
    destruct (crawler_step E cfg searchClause choice Closed queue c w)
      as [[c' q'] w'] eqn:Hstep.
    destruct (crawler_step_closed _ _ _ _ _ _ _ Hstep) as (Hp & _ & Hpre).
    apply crawler_step_effect in Hstep as (new & Htrace & _).
    destruct (IH c' w') as (Hp' & (later & Hl) & Hpre').
    split; [rewrite Hp'; exact Hp|]. split.
    + exists (offers new ++ later)%list.
      rewrite Hl, Htrace, offers_app, app_assoc. reflexivity.
    + etrans; [exact Hpre'|exact Hpre].
Qed.

End AfterCancellation.



(** X15. Once the crawler sees [stop] closed it fetches no page any more:
    in a run of the crawler in which every select finds [stop] closed,
    wherever it starts, whatever the queue holds at each step and whichever
    ready case each select picks, no search request is issued. *)
Theorem X15_no_page_after_cancellation E cfg clause obs c w :
  Forall (fun o => o.1.2 = Closed) obs ->
  page_fetches (trace (crawler_run E cfg clause obs c w).2) = page_fetches (trace w).
Proof.
  intros Hclosed. apply (crawler_run_closed E cfg clause obs c w Hclosed).
Qed.

Lemma X15_no_page_after_cancellation_witness :
  Forall (fun o : nat * signal_chan * list FlickrResultPhotoSize => o.1.2 = Closed)
         [(1%nat, Closed, []); (1%nat, Closed, [original "cat1"]);
          (0%nat, Closed, []); (0%nat, Closed, [])] /\
  page_fetches (trace (crawler_run healthy flags "cats"
                         [(1%nat, Closed, []); (1%nat, Closed, [original "cat1"]);
                          (0%nat, Closed, []); (0%nat, Closed, [])]
                         (CPhotos 1 [photo "o" "cat1"; photo "o" "cat2"]) blank).2)
    = page_fetches (trace blank).
Proof.
  split; [repeat constructor|].
  apply (X15_no_page_after_cancellation healthy flags "cats"
           [(1%nat, Closed, []); (1%nat, Closed, [original "cat1"]);
            (0%nat, Closed, []); (0%nat, Closed, [])]
           (CPhotos 1 [photo "o" "cat1"; photo "o" "cat2"]) blank).
  repeat constructor.
Defined.

(** X16. Once the crawler sees [stop] closed it can at most finish the page
    it is on: in a run of the crawler in which every select finds [stop]
    closed, what it offers is a prefix of the wanted entries of the photos it
    had not visited yet. *)
Theorem X16_offers_after_cancellation E cfg clause obs c w :
  Forall (fun o => o.1.2 = Closed) obs ->
  exists later,
    offers (trace (crawler_run E cfg clause obs c w).2)
      = (offers (trace w) ++ later)%list /\
    later `prefix_of` pend cfg c.
Proof.
  intros Hclosed.
  destruct (crawler_run_closed E cfg clause obs c w Hclosed)
    as (_ & (later & Hl) & Hp).
  exists later. split; [exact Hl|].
  rewrite Hl in Hp. destruct Hp as [k Hk].
  rewrite <- !app_assoc in Hk. apply app_inv_head in Hk.
  exists (pend cfg (crawler_run E cfg clause obs c w).1 ++ k)%list. exact Hk.
Qed.

Lemma X16_offers_after_cancellation_witness :
  Forall (fun o : nat * signal_chan * list FlickrResultPhotoSize => o.1.2 = Closed)
         [(1%nat, Closed, []); (0%nat, Closed, [original "cat1"])] /\
  pend flags (CPhotos 1 [photo "o" "cat1"; photo "o" "cat2"])
    = [original "cat1"; original "cat2"] /\
  exists later,
    offers (trace (crawler_run healthy flags "cats"
                     [(1%nat, Closed, []); (0%nat, Closed, [original "cat1"])]
                     (CPhotos 1 [photo "o" "cat1"; photo "o" "cat2"]) blank).2)
      = (offers (trace blank) ++ later)%list /\
    later `prefix_of` pend flags (CPhotos 1 [photo "o" "cat1"; photo "o" "cat2"]).
Proof.
  split; [repeat constructor|]. split; [reflexivity|].
  apply (X16_offers_after_cancellation healthy flags "cats"
           [(1%nat, Closed, []); (0%nat, Closed, [original "cat1"])]
           (CPhotos 1 [photo "o" "cat1"; photo "o" "cat2"]) blank).
  repeat constructor.
Defined.

(** X17. Shutdown after an interrupt can leave work behind.  When [stop]
    is closed and [finishing] set, [main] goes to wait without closing
    anything; if every worker's select then picks the stop case, all of them
    return, [main] exits with status 0, and whatever was still in the queue
    stays there: nothing of it is downloaded or written. *)
Theorem X17_interrupt_abandons_queue E cfg clause c1 c2 s :
  state s = Running ->
  pc s = MDrain ->
  finishing s = true ->
  stop s = Closed ->
  let s' := run E cfg clause
                ((Main, c1) :: replicate (workers s) (Worker, 1%nat) ++ [(Main, c2)]) s in
  state s' = Exited 0 /\
  workers s' = 0%nat /\
  grab_pictures s' = grab_pictures s /\
  fs (outside s') = fs (outside s) /\
  trace (outside s') =
    (trace (outside s) ++ [EvLog LogWaiting] ++
     replicate (workers s) (EvLog LogStoppingGrabber) ++ [EvLog LogFinished])%list.
Proof.
  intros Hst Hpc Hfin Hstop. cbv zeta. rewrite run_cons.
  assert (Hmain : step E cfg clause Main c1 s = say LogWaiting (set_pc MWait s)).
  { unfold step, main_step. rewrite Hst, Hpc, Hfin. reflexivity. }
  rewrite Hmain.
  enough (Hgen : forall n s1 done,
    state s1 = Running -> pc s1 = MWait -> stop s1 = Closed -> workers s1 = n ->
    trace (outside s1) =
      (trace (outside s) ++ [EvLog LogWaiting] ++
       replicate done (EvLog LogStoppingGrabber))%list ->
    let s' := run E cfg clause (replicate n (Worker, 1%nat) ++ [(Main, c2)]) s1 in
    state s' = Exited 0 /\ workers s' = 0%nat /\
    grab_pictures s' = grab_pictures s1 /\
    fs (outside s') = fs (outside s1) /\
    trace (outside s') =
      (trace (outside s) ++ [EvLog LogWaiting] ++
       replicate (done + n) (EvLog LogStoppingGrabber) ++ [EvLog LogFinished])%list).
  { apply (Hgen (workers s) (say LogWaiting (set_pc MWait s)) 0%nat);
      try assumption; reflexivity. }
  clear Hmain. induction n as [|n IH]; intros s1 done Hst1 Hpc1 Hstop1 Hw Htr; cbv zeta.
  - cbn [replicate app]. rewrite run_cons. cbn [run foldl].
    unfold step, main_step. rewrite Hst1, Hpc1, Hw. cbn.
    rewrite Htr, Nat.add_0_r, <- !app_assoc.
    repeat split; solve [reflexivity | assumption].
  - cbn [replicate app]. rewrite run_cons.
    assert (Hworker : step E cfg clause Worker 1 s1 =
      set_workers n
        (set_outside (emit (EvLog LogStoppingGrabber) (outside s1))
           (set_grab_pictures (grab_pictures s1) s1))).
    { unfold step, worker_step, grabPictures_iter. rewrite Hst1, Hw, Hstop1.
      destruct (grab_pictures s1) as [|sized rest]; reflexivity. }
    rewrite Hworker.
    destruct (IH (set_workers n
                    (set_outside (emit (EvLog LogStoppingGrabber) (outside s1))
                       (set_grab_pictures (grab_pictures s1) s1)))
                 (S done) Hst1 Hpc1 Hstop1 eq_refl) as (R1 & R2 & R3 & R4 & R5).
    { cbn [outside set_workers set_outside set_grab_pictures emit trace].
      rewrite Htr, replicate_S_end, <- !app_assoc. reflexivity. }
    repeat split; try assumption.
    rewrite R5. replace (S done + n)%nat with (done + S n)%nat by lia. reflexivity.
Qed.

Lemma X17_interrupt_abandons_queue_witness :
  state (run healthy flags "cats" (replicate 3 (Main, 1%nat)) interrupted_mid_page)
    = Running /\
  pc (run healthy flags "cats" (replicate 3 (Main, 1%nat)) interrupted_mid_page)
    = MDrain /\
  finishing (run healthy flags "cats" (replicate 3 (Main, 1%nat)) interrupted_mid_page)
    = true /\
  stop (run healthy flags "cats" (replicate 3 (Main, 1%nat)) interrupted_mid_page)
    = Closed /\
  state (run healthy flags "cats"
             ((Main, 0%nat) :: replicate 4 (Worker, 1%nat) ++ [(Main, 0%nat)])
             (run healthy flags "cats" (replicate 3 (Main, 1%nat)) interrupted_mid_page))
    = Exited 0 /\
  grab_pictures (run healthy flags "cats"
             ((Main, 0%nat) :: replicate 4 (Worker, 1%nat) ++ [(Main, 0%nat)])
             (run healthy flags "cats" (replicate 3 (Main, 1%nat)) interrupted_mid_page))
    = [original "cat1"; original "cat2"].
Proof.
  do 4 (split; [reflexivity|]).
  destruct (X17_interrupt_abandons_queue healthy flags "cats" 0%nat 0%nat
              (run healthy flags "cats" (replicate 3 (Main, 1%nat)) interrupted_mid_page))
    as (Hexit & _ & Hqueue & _); try reflexivity.
  split; [exact Hexit|]. exact (eq_trans Hqueue eq_refl).
Defined.
